(** * web-servidor: the request/response engine of [modules/shared/util.js]

    A shallow embedding of the utility module of the server
    ([parseRequest], [createResponse], [processGet], [processHead],
    [processPost], the four response builders, [runCGI],
    [parseFormUrlEncoded], the mime helpers) together with the JavaScript
    primitives they call, and the properties of the specification stated
    over it.

    Conventions.
    - A JavaScript string is its sequence of UTF-16 code units, [list N].
    - A [Buffer] is its sequence of bytes, [list N] as well.
    - A function that can throw returns a [Result].
    - Code that touches the file system runs in [IO], which records every
      call made to [fs]. *)

From Stdlib Require Import List NArith ZArith Bool Ascii String Lia Arith.
From Stdlib Require Import DecimalString.
Import ListNotations.

Local Open Scope N_scope.

(* ================================================================== *)
(** ** JavaScript strings *)
(* ================================================================== *)

Module Js.

(** A UTF-16 code unit (below [2^16] in every string the program sees). *)
Definition char16 := N.
(** A JavaScript string. *)
Definition jsstring := list char16.
(** A byte of a [Buffer] (below [2^8]). *)
Definition byte := N.
(** A [Buffer]. *)
Definition Buffer := list byte.

(** A string literal of the source, all of which are ASCII. *)
Definition lit (s : string) : jsstring :=
  map N_of_ascii (list_ascii_of_string s).

Definition ch (a : ascii) : char16 := N_of_ascii a.

(** [a === b] on strings. *)
Fixpoint str_eqb (a b : jsstring) : bool :=
  match a, b with
  | [], [] => true
  | x :: a', y :: b' => (x =? y) && str_eqb a' b'
  | _, _ => false
  end.

(** [p] is a prefix of [s]. *)
Fixpoint starts_with (p s : jsstring) : bool :=
  match p, s with
  | [], _ => true
  | x :: p', y :: s' => (x =? y) && starts_with p' s'
  | _ :: _, [] => false
  end.

(** [s.indexOf(p)]: the least index at which [p] occurs in [s];
    [None] stands for [-1]. *)
Fixpoint indexOf (s p : jsstring) : option nat :=
  if starts_with p s then Some 0%nat
  else match s with
       | [] => None
       | _ :: s' => option_map S (indexOf s' p)
       end.

(** [s.substring(i)] and [s.substring(i, j)] for [i <= j]. *)
Definition substring_from (s : jsstring) (i : nat) : jsstring := skipn i s.
Definition substring (s : jsstring) (i j : nat) : jsstring :=
  firstn (j - i) (skipn i s).

(** [s.charAt(0) === c]. *)
Definition charAt0_is (s : jsstring) (c : char16) : bool :=
  match s with
  | x :: _ => x =? c
  | [] => false
  end.

(** [s.split(sep)] for a non-empty separator: the pieces between the
    non-overlapping occurrences of [sep], found from left to right.
    [skip] counts the code units of a matched separator still to pass,
    [cur] is the piece being read, reversed. *)
Fixpoint split_from (sep : jsstring) (skip : nat) (cur : jsstring)
    (s : jsstring) : list jsstring :=
  match s with
  | [] => [rev cur]
  | c :: s' =>
      match skip with
      | S k => split_from sep k cur s'
      | O =>
          if starts_with sep s
          then rev cur :: split_from sep (List.length sep - 1) [] s'
          else split_from sep 0 (c :: cur) s'
      end
  end.

Definition split (s sep : jsstring) : list jsstring :=
  split_from sep 0 [] s.

(** [parts.join(sep)] *)
Fixpoint join (sep : jsstring) (parts : list jsstring) : jsstring :=
  match parts with
  | [] => []
  | [p] => p
  | p :: ps => p ++ sep ++ join sep ps
  end.

(** The code units that [trim] removes: WhiteSpace and LineTerminator of
    the language specification. *)
Definition is_js_space (c : char16) : bool :=
  ((9 <=? c) && (c <=? 13)) || (c =? 32) || (c =? 160) || (c =? 5760)
  || ((8192 <=? c) && (c <=? 8202)) || (c =? 8232) || (c =? 8233)
  || (c =? 8239) || (c =? 8287) || (c =? 12288) || (c =? 65279).

Fixpoint trim_start (s : jsstring) : jsstring :=
  match s with
  | c :: s' => if is_js_space c then trim_start s' else s
  | [] => []
  end.

(** [s.trim()] *)
Definition trim (s : jsstring) : jsstring :=
  rev (trim_start (rev (trim_start s))).

End Js.
Import Js.

(* ================================================================== *)
(** ** UTF-8: [buf.toString()] and [Buffer.from(string)] *)
(* ================================================================== *)

Module Utf8.

Definition in_range (lo hi b : N) : bool := (lo <=? b) && (b <=? hi).

(** Bounds on the second byte of a sequence, by its first byte. *)
Definition lower2 (b0 : byte) : N :=
  if b0 =? 0xE0 then 0xA0 else if b0 =? 0xF0 then 0x90 else 0x80.
Definition upper2 (b0 : byte) : N :=
  if b0 =? 0xED then 0x9F else if b0 =? 0xF4 then 0x8F else 0xBF.

(** The code point carried by a sequence of two, three and four bytes. *)
Definition cp2 (b0 b1 : byte) : N := (b0 mod 32) * 64 + b1 mod 64.
Definition cp3 (b0 b1 b2 : byte) : N :=
  ((b0 mod 16) * 64 + b1 mod 64) * 64 + b2 mod 64.
Definition cp4 (b0 b1 b2 b3 : byte) : N :=
  (((b0 mod 8) * 64 + b1 mod 64) * 64 + b2 mod 64) * 64 + b3 mod 64.

(** UTF16EncodeCodePoint *)
Definition utf16 (cp : N) : jsstring :=
  if cp <? 0x10000 then [cp]
  else [0xD800 + (cp - 0x10000) / 1024; 0xDC00 + (cp - 0x10000) mod 1024].

(** U+FFFD REPLACEMENT CHARACTER *)
Definition replacement : char16 := 0xFFFD.

(** [buf.toString()]: UTF-8 decoding in which every maximal ill-formed
    part becomes one U+FFFD and the byte that broke a sequence is read
    again as the start of the next one. *)
Fixpoint decode (bs : Buffer) : jsstring :=
  match bs with
  | [] => []
  | b0 :: r0 =>
      if b0 <? 0x80 then b0 :: decode r0
      else if in_range 0xC2 0xDF b0 then
        match r0 with
        | [] => [replacement]
        | b1 :: r1 =>
            if in_range 0x80 0xBF b1 then utf16 (cp2 b0 b1) ++ decode r1
            else replacement :: decode r0
        end
      else if in_range 0xE0 0xEF b0 then
        match r0 with
        | [] => [replacement]
        | b1 :: r1 =>
            if in_range (lower2 b0) (upper2 b0) b1 then
              match r1 with
              | [] => [replacement]
              | b2 :: r2 =>
                  if in_range 0x80 0xBF b2
                  then utf16 (cp3 b0 b1 b2) ++ decode r2
                  else replacement :: decode r1
              end
            else replacement :: decode r0
        end
      else if in_range 0xF0 0xF4 b0 then
        match r0 with
        | [] => [replacement]
        | b1 :: r1 =>
            if in_range (lower2 b0) (upper2 b0) b1 then
              match r1 with
              | [] => [replacement]
              | b2 :: r2 =>
                  if in_range 0x80 0xBF b2 then
                    match r2 with
                    | [] => [replacement]
                    | b3 :: r3 =>
                        if in_range 0x80 0xBF b3
                        then utf16 (cp4 b0 b1 b2 b3) ++ decode r3
                        else replacement :: decode r2
                    end
                  else replacement :: decode r1
              end
            else replacement :: decode r0
        end
      else replacement :: decode r0
  end.

(** The UTF-8 form of one code point. *)
Definition encode_cp (cp : N) : Buffer :=
  if cp <? 0x80 then [cp]
  else if cp <? 0x800 then [0xC0 + cp / 64; 0x80 + cp mod 64]
  else if cp <? 0x10000 then
    [0xE0 + cp / 4096; 0x80 + (cp / 64) mod 64; 0x80 + cp mod 64]
  else
    [0xF0 + cp / 262144; 0x80 + (cp / 4096) mod 64;
     0x80 + (cp / 64) mod 64; 0x80 + cp mod 64].

Definition is_high_surrogate (c : char16) : bool := in_range 0xD800 0xDBFF c.
Definition is_low_surrogate (c : char16) : bool := in_range 0xDC00 0xDFFF c.

(** [Buffer.from(s)]: UTF-8 encoding of the code points of [s]; a
    surrogate that is not part of a pair is encoded as U+FFFD. *)
Fixpoint encode (s : jsstring) : Buffer :=
  match s with
  | [] => []
  | c :: s' =>
      if is_high_surrogate c then
        match s' with
        | d :: s'' =>
            if is_low_surrogate d
            then encode_cp (0x10000 + (c - 0xD800) * 1024 + (d - 0xDC00))
                   ++ encode s''
            else encode_cp replacement ++ encode s'
        | [] => encode_cp replacement
        end
      else if is_low_surrogate c then encode_cp replacement ++ encode s'
      else encode_cp c ++ encode s'
  end.

(** Well-formed UTF-8 byte sequences (table 3-7 of the Unicode standard). *)
Fixpoint well_formed (bs : Buffer) : bool :=
  match bs with
  | [] => true
  | b0 :: r0 =>
      if b0 <? 0x80 then well_formed r0
      else if in_range 0xC2 0xDF b0 then
        match r0 with
        | b1 :: r1 => in_range 0x80 0xBF b1 && well_formed r1
        | _ => false
        end
      else if in_range 0xE0 0xEF b0 then
        match r0 with
        | b1 :: b2 :: r2 =>
            in_range (lower2 b0) (upper2 b0) b1 && in_range 0x80 0xBF b2
            && well_formed r2
        | _ => false
        end
      else if in_range 0xF0 0xF4 b0 then
        match r0 with
        | b1 :: b2 :: b3 :: r3 =>
            in_range (lower2 b0) (upper2 b0) b1 && in_range 0x80 0xBF b2
            && in_range 0x80 0xBF b3 && well_formed r3
        | _ => false
        end
      else false
  end.

(** A Unicode scalar value: a code point that is not a surrogate. *)
Definition scalar (cp : N) : Prop :=
  (cp < 0xD800 \/ 0xE000 <= cp) /\ cp < 0x110000.

End Utf8.

(* ================================================================== *)
(** ** Exceptions, values and objects *)
(* ================================================================== *)

(** What the code can throw: a [TypeError] (a method called on
    [undefined] or on [false]), a [URIError] (a malformed escape given to
    [decodeURIComponent]) and the error of a failed [fs.readFileSync]. *)
Inductive Exn : Type :=
  | TypeError
  | URIError
  | FsError (path : jsstring).

Inductive Result (A : Type) : Type :=
  | Ok (a : A)
  | Throw (e : Exn).
Arguments Ok {A} a.
Arguments Throw {A} e.

Definition rbind {A B} (m : Result A) (f : A -> Result B) : Result B :=
  match m with
  | Ok a => f a
  | Throw e => Throw e
  end.

Definition rmap {A B} (f : A -> B) (m : Result A) : Result B :=
  rbind m (fun a => Ok (f a)).

(** [xs.map(f)] for an [f] that can throw: left to right, stopping at the
    first exception. *)
Fixpoint map_result {A B} (f : A -> Result B) (xs : list A)
    : Result (list B) :=
  match xs with
  | [] => Ok []
  | x :: xs' =>
      rbind (f x) (fun y => rbind (map_result f xs') (fun ys => Ok (y :: ys)))
  end.

(** The values stored in the property bags of the program: a string, or
    [undefined]. *)
Inductive Value : Type :=
  | VUndefined
  | VString (s : jsstring).

(** ToString, as applied by template literals and by [replace]. *)
Definition to_string (v : Value) : jsstring :=
  match v with
  | VUndefined => lit "undefined"
  | VString s => s
  end.

Module Obj.

(** An object made by [{}] and filled by [o[k] = v]: its own properties
    in order of creation. *)
Definition t := list (jsstring * Value).

Definition empty : t := [].

Definition proto_key : jsstring := Eval cbv in lit "__proto__".

Fixpoint has (o : t) (k : jsstring) : bool :=
  match o with
  | [] => false
  | (k', _) :: o' => str_eqb k' k || has o' k
  end.

(** The names that [Object.prototype] defines.  On an object that has
    no property of its own under such a name, [o[k]] is not [undefined]
    but the member inherited from [Object.prototype]: a function, or the
    prototype itself for [__proto__]. *)
Definition inherited (k : jsstring) : bool :=
  existsb (str_eqb k)
    [lit "constructor"; lit "__defineGetter__"; lit "__defineSetter__";
     lit "hasOwnProperty"; lit "__lookupGetter__"; lit "__lookupSetter__";
     lit "isPrototypeOf"; lit "propertyIsEnumerable"; lit "toString";
     lit "valueOf"; lit "__proto__"; lit "toLocaleString"].

(** [o[k]] for a key that [o] has, or that [Object.prototype] does not
    define either ([inherited k = false]): the property of [o], and
    [undefined] when [o] has no such property. *)
Fixpoint get (o : t) (k : jsstring) : Value :=
  match o with
  | [] => VUndefined
  | (k', v) :: o' => if str_eqb k' k then v else get o' k
  end.

Fixpoint update (o : t) (k : jsstring) (v : Value) : t :=
  match o with
  | [] => [(k, v)]
  | (k', v') :: o' =>
      if str_eqb k' k then (k', v) :: o' else (k', v') :: update o' k v
  end.

(** [o[k] = v] for a string or [undefined] [v].  The key [__proto__]
    reaches the setter inherited from [Object.prototype], which ignores a
    value that is neither an object nor [null]: no property is made.
    Any other key is overwritten where it stands or added last. *)
Definition set (o : t) (k : jsstring) (v : Value) : t :=
  if str_eqb k proto_key then o else update o k v.

(** The value of a decimal digit. *)
Definition digit (c : char16) : option N :=
  if (48 <=? c) && (c <=? 57) then Some (c - 48) else None.

Fixpoint digits (acc : N) (s : jsstring) : option N :=
  match s with
  | [] => Some acc
  | c :: s' =>
      match digit c with
      | Some d => digits (10 * acc + d) s'
      | None => None
      end
  end.

(** A key is an array index when it is the canonical decimal form of an
    integer below [2^32 - 1]. *)
Definition array_index (k : jsstring) : option N :=
  match k with
  | [] => None
  | c :: k' =>
      if (c =? 48) && negb (Nat.eqb (List.length k') 0) then None
      else match digits 0 k with
           | Some n => if n <? 4294967295 then Some n else None
           | None => None
           end
  end.

Fixpoint insert_by_index (n : N) (k : jsstring) (l : list (N * jsstring))
    : list (N * jsstring) :=
  match l with
  | [] => [(n, k)]
  | (m, k') :: l' =>
      if n <=? m then (n, k) :: l else (m, k') :: insert_by_index n k l'
  end.

Fixpoint index_keys (o : t) : list (N * jsstring) :=
  match o with
  | [] => []
  | (k, _) :: o' =>
      match array_index k with
      | Some n => insert_by_index n k (index_keys o')
      | None => index_keys o'
      end
  end.

Fixpoint named_keys (o : t) : list jsstring :=
  match o with
  | [] => []
  | (k, _) :: o' =>
      match array_index k with
      | Some _ => named_keys o'
      | None => k :: named_keys o'
      end
  end.

(** [Object.keys(o)]: the array indices in ascending order, then the
    other keys in order of creation. *)
Definition keys (o : t) : list jsstring :=
  map snd (index_keys o) ++ named_keys o.

End Obj.

(* ================================================================== *)
(** ** [String.prototype.replace] with a string pattern *)
(* ================================================================== *)

(** GetSubstitution for a match without captures: in the replacement
    text, [$$] stands for [$], [$&] for the matched text, [$`] for the
    text before the match and [$'] for the text after it; every other
    code unit stands for itself. *)
Fixpoint get_substitution (matched before after repl : jsstring) : jsstring :=
  match repl with
  | [] => []
  | c :: r =>
      if c =? 36 then
        match r with
        | d :: r' =>
            if d =? 36 then 36 :: get_substitution matched before after r'
            else if d =? 38 then
              matched ++ get_substitution matched before after r'
            else if d =? 96 then
              before ++ get_substitution matched before after r'
            else if d =? 39 then
              after ++ get_substitution matched before after r'
            else c :: get_substitution matched before after r
        | [] => [c]
        end
      else c :: get_substitution matched before after r
  end.

(** [s.replace(pat, repl)]: the first occurrence of [pat], if any, gives
    way to the substitution computed from [repl]. *)
Definition replace (s pat repl : jsstring) : jsstring :=
  match indexOf s pat with
  | None => s
  | Some i =>
      let before := firstn i s in
      let after := skipn (i + List.length pat) s in
      before ++ get_substitution pat before after repl ++ after
  end.

(** [s.replace(/\+/g, '%20')] *)
Definition plus_to_percent20 (s : jsstring) : jsstring :=
  flat_map (fun c => if c =? 43 then [37; 50; 48] else [c]) s.

(* ================================================================== *)
(** ** [decodeURIComponent] *)
(* ================================================================== *)

Module Uri.

Definition hex (c : char16) : option N :=
  if (48 <=? c) && (c <=? 57) then Some (c - 48)
  else if (65 <=? c) && (c <=? 70) then Some (c - 55)
  else if (97 <=? c) && (c <=? 102) then Some (c - 87)
  else None.

(** A code unit taken as it is, or the octet of an escape [%XY]. *)
Inductive Token : Type :=
  | Lit (c : char16)
  | Octet (b : byte).

(** Every [%] must be followed by two hexadecimal digits. *)
Fixpoint tokens (s : jsstring) : Result (list Token) :=
  match s with
  | [] => Ok []
  | c :: r =>
      if c =? 37 then
        match r with
        | h1 :: h2 :: r' =>
            match hex h1, hex h2 with
            | Some a, Some b =>
                rmap (cons (Octet (16 * a + b))) (tokens r')
            | _, _ => Throw URIError
            end
        | _ => Throw URIError
        end
      else rmap (cons (Lit c)) (tokens r)
  end.

Import Utf8.

(** An octet below [0x80] is its code unit; any other octet must open a
    well-formed UTF-8 sequence made of escapes only, which stands for the
    UTF-16 form of its code point. *)
Fixpoint of_tokens (ts : list Token) : Result jsstring :=
  match ts with
  | [] => Ok []
  | Lit c :: r => rmap (cons c) (of_tokens r)
  | Octet b0 :: r0 =>
      if b0 <? 0x80 then rmap (cons b0) (of_tokens r0)
      else if in_range 0xC2 0xDF b0 then
        match r0 with
        | Octet b1 :: r1 =>
            if in_range 0x80 0xBF b1
            then rmap (app (utf16 (cp2 b0 b1))) (of_tokens r1)
            else Throw URIError
        | _ => Throw URIError
        end
      else if in_range 0xE0 0xEF b0 then
        match r0 with
        | Octet b1 :: Octet b2 :: r2 =>
            if in_range (lower2 b0) (upper2 b0) b1 && in_range 0x80 0xBF b2
            then rmap (app (utf16 (cp3 b0 b1 b2))) (of_tokens r2)
            else Throw URIError
        | _ => Throw URIError
        end
      else if in_range 0xF0 0xF4 b0 then
        match r0 with
        | Octet b1 :: Octet b2 :: Octet b3 :: r3 =>
            if in_range (lower2 b0) (upper2 b0) b1 && in_range 0x80 0xBF b2
               && in_range 0x80 0xBF b3
            then rmap (app (utf16 (cp4 b0 b1 b2 b3))) (of_tokens r3)
            else Throw URIError
        | _ => Throw URIError
        end
      else Throw URIError
  end.

(** [decodeURIComponent(s)] *)
Definition decodeURIComponent (s : jsstring) : Result jsstring :=
  rbind (tokens s) of_tokens.

End Uri.

(* ================================================================== *)
(** ** The file system and the [IO] monad *)
(* ================================================================== *)

(** What a path of the file system leads to. *)
Inductive FsNode : Type :=
  | NoEntry
  | Directory
  | File (data : Buffer).

(** The calls made to the [fs] module. *)
Inductive FsCall : Type :=
  | ExistsSync (path : jsstring)
  | ReadFileSync (path : jsstring).

(** A computation that calls [fs]: the calls made, in order, and the
    value returned or the exception thrown. *)
Definition IO (A : Type) : Type := (list FsCall * Result A)%type.

Definition ret {A} (a : A) : IO A := ([], Ok a).

Definition bind {A B} (m : IO A) (f : A -> IO B) : IO B :=
  match m with
  | (calls, Ok a) => let (calls', r) := f a in (calls ++ calls', r)
  | (calls, Throw e) => (calls, Throw e)
  end.

Definition lift {A} (r : Result A) : IO A := ([], r).

Definition outcome {A} (m : IO A) : Result A := snd m.

Declare Scope io_scope.
Delimit Scope io_scope with io.
Notation "x <- m ;; k" := (bind m (fun x => k))
  (at level 61, m at next level, right associativity) : io_scope.

(* ================================================================== *)
(** ** [mime.lookup] of the [mime-types] package *)
(* ================================================================== *)

(** [util.js] gets the mime type of a resource from [mime.lookup], where
    [mime] is [require('mime-types')].  The result of [mime.lookup] is a
    mime type, or [false]. *)
Inductive Mime : Type :=
  | MFalse
  | MType (t : jsstring).

Section MimeTypes.

(** [path.extname] and [String.prototype.toLowerCase], which [lookup]
    calls, and [types], the extension table built from [mime-db]. *)
Variable extname : jsstring -> jsstring.
Variable toLowerCase : jsstring -> jsstring.
Variable types : jsstring -> option jsstring.

(** The extension that [lookup] looks up:
    [extname('x.' + path).toLowerCase().substr(1)]. *)
Definition extension (path : jsstring) : jsstring :=
  substring_from (toLowerCase (extname (lit "x." ++ path))) 1.

(** [lookup(path)] as the package defines it, for a string [path]:
    [if (!path) return false], then
    [if (!extension) return false], then
    [return exports.types[extension] || false].  The package has no
    fallback type. *)
Definition lookup (path : jsstring) : Mime :=
  match path with
  | [] => MFalse
  | _ =>
      match extension path with
      | [] => MFalse
      | ext =>
          match types ext with
          | Some (c :: t) => MType (c :: t)
          | _ => MFalse
          end
      end
  end.

End MimeTypes.

(* ================================================================== *)
(** ** [modules/shared/util.js] *)
(* ================================================================== *)

Record ResponseHeaders : Type := mkHeaders {
  Date : jsstring;
  Server : jsstring;
  Content_Length : nat;
  Content_Type : Mime
}.

(** A response object; [body] is a [Buffer] or [null]. *)
Record Response : Type := mkResponse {
  statusCode : jsstring;
  res_headers : ResponseHeaders;
  res_body : option Buffer
}.

Section Util.

(** The result type of [queryString.parse] of the [query-string]
    package, the function itself, and the object [{}]. *)
Variable QueryParams : Type.
Variable queryString_parse : jsstring -> Result QueryParams.
Variable no_params : QueryParams.

(** A request object; [body] is a string or [null]. *)
Record Request : Type := mkRequest {
  headers : Obj.t;
  method : jsstring;
  resource : jsstring;
  params : QueryParams;
  body : option jsstring
}.

(** [wwwPath], the served root. *)
Variable wwwPath : jsstring.
(** The file system. *)
Variable fs : jsstring -> FsNode.
(** [moment().format('ddd, MMMM Do YYYY HH:mm:ss Z')] *)
Variable now : jsstring.
(** [mime.lookup] *)
Variable mime_lookup : jsstring -> Mime.

Local Open Scope io_scope.

(** [fs.existsSync(path)] *)
Definition existsSync (path : jsstring) : IO bool :=
  ([ExistsSync path],
   Ok match fs path with
      | NoEntry => false
      | _ => true
      end).

(** [fs.readFileSync(path)] *)
Definition readFileSync (path : jsstring) : IO Buffer :=
  ([ReadFileSync path],
   match fs path with
   | File data => Ok data
   | _ => Throw (FsError path)
   end).

Definition crlf : jsstring := [13; 10].

(** The body of the [forEach] of [parseRequest]; the state is
    [isBody], [request.headers] and [request.body]. *)
Definition scan_line (st : bool * Obj.t * option jsstring)
    (line : jsstring) : bool * Obj.t * option jsstring :=
  let '(isBody, hs, bd) := st in
  let '(hs', bd') :=
    if negb isBody then
      let lineParts := split line (lit ":") in
      if (1 <? List.length lineParts)%nat then
        let headerName := nth 0 lineParts [] in
        let headerValue := nth 1 lineParts [] in
        let headerValue :=
          if charAt0_is headerValue (ch " ")
          then substring_from headerValue 1
          else headerValue in
        let headerValue :=
          fold_left (fun hv part => hv ++ lit ":" ++ part)
                    (skipn 2 lineParts) headerValue in
        (Obj.set hs headerName (VString headerValue), bd)
      else (hs, bd)
    else (hs, Some line) in
  (isBody || str_eqb line [], hs', bd').

Definition parseRequest (requestText : jsstring) : Result Request :=
  let lines := split requestText crlf in
  let firstLineParts := split (nth 0 lines []) (lit " ") in
  let method := nth 0 firstLineParts [] in
  match nth_error firstLineParts 1 with
  | None => Throw TypeError
  | Some target =>
      rbind
        match indexOf target (lit "?") with
        | Some i =>
            rbind (queryString_parse (substring_from target i))
                  (fun ps => Ok (substring target 0 i, ps))
        | None => Ok (target, no_params)
        end
        (fun '(resource, params) =>
           let '(_, hs, bd) :=
             fold_left scan_line lines (false, Obj.empty, None) in
           Ok (mkRequest hs method resource params bd))
  end.

Definition createResponseObject (statusCode : jsstring)
    (headers : ResponseHeaders) (body : option Buffer) : Response :=
  mkResponse statusCode headers body.

(** [body ? body.length : 0]; a [Buffer] is truthy whatever its
    length. *)
Definition body_length (body : option Buffer) : nat :=
  match body with
  | Some b => List.length b
  | None => 0
  end.

Definition create200Response (body : option Buffer) (contentType : Mime)
    : Response :=
  createResponseObject (lit "200 OK")
    (mkHeaders now (lit "MiServidor/1.0") (body_length body) contentType)
    body.

Definition create404Response : IO Response :=
  body <- readFileSync (wwwPath ++ lit "/404.html");;
  ret (createResponseObject (lit "404 NOT FOUND")
         (mkHeaders now (lit "MiServidor/1.0") (body_length (Some body))
                    (MType (lit "text/html")))
         (Some body)).

Definition create406Response : IO Response :=
  body <- readFileSync (wwwPath ++ lit "/406.html");;
  ret (createResponseObject (lit "406 NOT ACCEPTABLE")
         (mkHeaders now (lit "MiServidor/1.0") (body_length (Some body))
                    (MType (lit "text/html")))
         (Some body)).

Definition create501Response : IO Response :=
  body <- readFileSync (wwwPath ++ lit "/501.html");;
  ret (createResponseObject (lit "501 NOT IMPLEMENTED")
         (mkHeaders now (lit "MiServidor/1.0") (body_length (Some body))
                    (MType (lit "text/html")))
         (Some body)).

(** The placeholder [%%key%%]. *)
Definition placeholder (key : jsstring) : jsstring :=
  lit "%%" ++ key ++ lit "%%".

(** The body of the [forEach] of [runCGI]. *)
Definition substitute (params : Obj.t) (template key : jsstring)
    : jsstring :=
  match indexOf template (placeholder key) with
  | Some _ =>
      replace template (placeholder key) (to_string (Obj.get params key))
  | None => template
  end.

Definition runCGI (data : Buffer) (params : Obj.t) : Buffer :=
  let template := Utf8.decode data in
  let template := fold_left (substitute params) (Obj.keys params) template in
  Utf8.encode template.

(** [array[i]], [undefined] beyond the end. *)
Definition at_index (parts : list jsstring) (i : nat) : Value :=
  match nth_error parts i with
  | Some s => VString s
  | None => VUndefined
  end.

(** The body of the [forEach] of [parseFormUrlEncoded]. *)
Definition add_property (properties : Obj.t) (prop : jsstring)
    : Result Obj.t :=
  rbind
    (map_result
       (fun part => Uri.decodeURIComponent (plus_to_percent20 part))
       (split prop (lit "=")))
    (fun parts => Ok (Obj.set properties (nth 0 parts []) (at_index parts 1))).

Definition parseFormUrlEncoded (body : jsstring) : Result Obj.t :=
  fold_left (fun acc prop => rbind acc (fun ps => add_property ps prop))
            (split body (lit "&")) (Ok Obj.empty).

Definition getReqResourceName (req : Request) : jsstring :=
  let resourceName := substring_from (resource req) 1 in
  if str_eqb resourceName [] then lit "index.html" else resourceName.

Definition getMimeTypeParts (mimeType : jsstring) : list jsstring :=
  let parsedType := trim mimeType in
  let parsedType :=
    match indexOf parsedType (lit ";") with
    | Some i => substring parsedType 0 i
    | None => parsedType
    end in
  split parsedType (lit "/").

(** [mimeTypesAsString] is [req.headers['Accept']]: [undefined] has no
    [split]. *)
Definition parseMimeTypeList (mimeTypesAsString : Value)
    : Result (list jsstring) :=
  match mimeTypesAsString with
  | VUndefined => Throw TypeError
  | VString s =>
      Ok (map (fun type =>
                 let typeParts := getMimeTypeParts type in
                 to_string (at_index typeParts 0) ++ lit "/"
                   ++ to_string (at_index typeParts 1))
              (split s (lit ",")))
  end.

(** [array.indexOf(x) === -1] is [negb (existsb (str_eqb x) array)];
    [false] is strictly equal to no string. *)
Definition mimeTypeIsAccepted (resourceMimeType : Mime)
    (acceptedMimeTypes : list jsstring) : bool :=
  if negb match resourceMimeType with
          | MType t => existsb (str_eqb t) acceptedMimeTypes
          | MFalse => false
          end
     && negb (existsb (str_eqb (lit "*/*")) acceptedMimeTypes)
  then false
  else true.

(** [mimeType] is the result of [mime.lookup]: [false] has no [trim]. *)
Definition mimeTypeIsHtml (mimeType : Mime) : Result bool :=
  match mimeType with
  | MFalse => Throw TypeError
  | MType t =>
      let mimeParts := getMimeTypeParts t in
      Ok match at_index mimeParts 0, at_index mimeParts 1 with
         | VString a, VString b =>
             str_eqb a (lit "text") && str_eqb b (lit "html")
         | _, _ => false
         end
  end.

(** [req.body && ...]: [null] and the empty string are falsy. *)
Definition truthy (body : option jsstring) : option jsstring :=
  match body with
  | Some (c :: s) => Some (c :: s)
  | _ => None
  end.

Definition processGet (req : Request) : IO Response :=
  let resourceName := getReqResourceName req in
  let resourcePath := wwwPath ++ lit "/" ++ resourceName in
  resourceExists <- existsSync resourcePath;;
  let resourceMimeType := mime_lookup resourceName in
  acceptedMimeTypes <-
    lift (parseMimeTypeList (Obj.get (headers req) (lit "Accept")));;
  if negb resourceExists then create404Response
  else if negb (mimeTypeIsAccepted resourceMimeType acceptedMimeTypes)
  then create406Response
  else
    data <- readFileSync resourcePath;;
    data <- match truthy (body req) with
            | Some b =>
                isHtml <- lift (mimeTypeIsHtml (mime_lookup resourceName));;
                if (isHtml : bool) then
                  ps <- lift (parseFormUrlEncoded b);;
                  ret (runCGI data ps)
                else ret data
            | None => ret data
            end;;
    ret (create200Response (Some data) resourceMimeType).

Definition processHead (req : Request) : IO Response :=
  let resourceName := getReqResourceName req in
  let resourcePath := wwwPath ++ lit "/" ++ resourceName in
  resourceExists <- existsSync resourcePath;;
  let resourceMimeType := mime_lookup resourceName in
  acceptedMimeTypes <-
    lift (parseMimeTypeList (Obj.get (headers req) (lit "Accept")));;
  if negb resourceExists then create404Response
  else if negb (mimeTypeIsAccepted resourceMimeType acceptedMimeTypes)
  then create406Response
  else ret (create200Response None resourceMimeType).

Definition processPost (req : Request) : IO Response :=
  let resourceName := getReqResourceName req in
  let resourcePath := wwwPath ++ lit "/" ++ resourceName in
  resourceExists <- existsSync resourcePath;;
  let resourceMimeType := mime_lookup resourceName in
  acceptedMimeTypes <-
    lift (parseMimeTypeList (Obj.get (headers req) (lit "Accept")));;
  if negb resourceExists then create404Response
  else if negb (mimeTypeIsAccepted resourceMimeType acceptedMimeTypes)
  then create406Response
  else
    data <- readFileSync resourcePath;;
    data <- match truthy (body req) with
            | Some b =>
                isHtml <- lift (mimeTypeIsHtml (mime_lookup resourceName));;
                if (isHtml : bool) then
                  ps <- lift (parseFormUrlEncoded b);;
                  ret (runCGI data ps)
                else ret data
            | None => ret data
            end;;
    ret (create200Response (Some data) resourceMimeType).

Definition createResponse (req : Request) : IO Response :=
  if str_eqb (method req) (lit "GET") then processGet req
  else if str_eqb (method req) (lit "HEAD") then processHead req
  else if str_eqb (method req) (lit "POST") then processPost req
  else create501Response.

End Util.

Arguments mkRequest {QueryParams} headers method resource params body.
Arguments headers {QueryParams} r.
Arguments method {QueryParams} r.
Arguments resource {QueryParams} r.
Arguments params {QueryParams} r.
Arguments body {QueryParams} r.
Arguments parseRequest {QueryParams} queryString_parse no_params requestText.
Arguments getReqResourceName {QueryParams} req.
Arguments processGet {QueryParams} wwwPath fs now mime_lookup req.
Arguments processHead {QueryParams} wwwPath fs now mime_lookup req.
Arguments processPost {QueryParams} wwwPath fs now mime_lookup req.
Arguments createResponse {QueryParams} wwwPath fs now mime_lookup req.

(* ================================================================== *)
(** ** [modules/shared/util.js]: the serializer and the small helpers *)
(* ================================================================== *)

(** The decimal form of a length, as a template literal prints it. *)
Definition number_to_string (n : nat) : jsstring :=
  lit (NilEmpty.string_of_uint (Nat.to_uint n)).

(** A [Content-Type] value as a template literal prints it. *)
Definition mime_to_string (m : Mime) : jsstring :=
  match m with
  | MFalse => lit "false"
  | MType t => t
  end.

(** [Object.keys(response.headers)] with the value of each key, for the
    headers object that the builders make. *)
Definition header_entries (h : ResponseHeaders)
    : list (jsstring * jsstring) :=
  [(lit "Date", Date h);
   (lit "Server", Server h);
   (lit "Content-Length", number_to_string (Content_Length h));
   (lit "Content-Type", mime_to_string (Content_Type h))].

(** The text that [responseToBuffer] builds before it makes a buffer. *)
Definition responseString (response : Response) : jsstring :=
  let responseString := lit "HTTP/1.1 " in
  let responseString := responseString ++ statusCode response ++ crlf in
  let responseString :=
    fold_left (fun rs kv => rs ++ (fst kv ++ lit ": " ++ snd kv) ++ crlf)
              (header_entries (res_headers response)) responseString in
  responseString ++ crlf.

Definition responseToBuffer (response : Response) : Buffer :=
  match res_body response with
  | Some body => Utf8.encode (responseString response) ++ body
  | None => Utf8.encode (responseString response)
  end.


(** [conn.remoteAddress.replace('::ffff:', '')]; [remoteAddress] is a
    string, or [undefined] once the socket is destroyed. *)
Definition getSocketRemoteAddr (remoteAddress : Value) : Result jsstring :=
  match remoteAddress with
  | VUndefined => Throw TypeError
  | VString a => Ok (replace a (lit "::ffff:") [])
  end.

(* ================================================================== *)
(** ** [index.js]: what is written to a connection *)
(* ================================================================== *)

Section Server.

Context {QueryParams : Type}.
Variable queryString_parse : jsstring -> Result QueryParams.
Variable no_params : QueryParams.
Variable wwwPath : jsstring.
Variable fs : jsstring -> FsNode.
Variable now : jsstring.
Variable mime_lookup : jsstring -> Mime.

Local Open Scope io_scope.

(** The handler of a chunk of data: the request is parsed and answered,
    and the serialized response is what [conn.write] gets.  The two calls
    to the logger are left out. *)
Definition onData (data : Buffer) : IO Buffer :=
  request <- lift (parseRequest queryString_parse no_params
                                (Utf8.decode data));;
  response <- createResponse wwwPath fs now mime_lookup request;;
  ret (responseToBuffer response).

End Server.

(* ================================================================== *)
(** ** Notions of the specification *)
(* ================================================================== *)

(** The text of [s] before the first [c], all of [s] when it has none. *)
Fixpoint before_first (c : char16) (s : jsstring) : jsstring :=
  match s with
  | [] => []
  | x :: s' => if x =? c then [] else x :: before_first c s'
  end.

(** The text of [s] after the first [c], if it has one. *)
Fixpoint after_first (c : char16) (s : jsstring) : option jsstring :=
  match s with
  | [] => None
  | x :: s' => if x =? c then Some s' else after_first c s'
  end.

(** [s] with one leading space removed, if it starts with one. *)
Definition trim_one_space (s : jsstring) : jsstring :=
  match s with
  | x :: s' => if x =? ch " " then s' else s
  | [] => []
  end.

(** The header that a line stands for: a line is split at its first
    [:], and the value is what follows, less one leading space. *)
Definition header_of_line (line : jsstring) : option (jsstring * jsstring) :=
  match after_first (ch ":") line with
  | Some raw => Some (before_first (ch ":") line, trim_one_space raw)
  | None => None
  end.

(** The lines up to, not including, the first empty one. *)
Fixpoint header_lines (lines : list jsstring) : list jsstring :=
  match lines with
  | [] => []
  | l :: ls => match l with
               | [] => []
               | _ => l :: header_lines ls
               end
  end.

(** The headers object as the specification builds it: every header line
    with a [:] sets its entry, every other line is passed over. *)
Definition add_header (hs : Obj.t) (line : jsstring) : Obj.t :=
  match header_of_line line with
  | Some (name, value) => Obj.set hs name (VString value)
  | None => hs
  end.

(** The invariant of a response: [Content-Length] is the byte length of
    the body, [0] when the body is absent. *)
Definition content_length_ok (r : Response) : Prop :=
  match res_body r with
  | Some b => Content_Length (res_headers r) = List.length b
  | None => Content_Length (res_headers r) = 0%nat
  end.

(** [decodeURIComponent(part.replace(/\+/g, '%20'))] *)
Definition form_decode (part : jsstring) : Result jsstring :=
  Uri.decodeURIComponent (plus_to_percent20 part).

(** [p] occurs in [s], after [pre] and before [post]. *)
Definition occurs_at (p s pre post : jsstring) : Prop := s = pre ++ p ++ post.

(** [p] occurs in [s]. *)
Definition occurs_in (p s : jsstring) : Prop :=
  exists pre post, occurs_at p s pre post.





(* ================================================================== *)
(** ** A small deployment, for the examples *)
(* ================================================================== *)

Module Demo.

(** A stand-in for [queryString.parse]: the query string itself. *)
Definition QueryParams : Type := jsstring.
Definition queryString_parse (s : jsstring) : Result QueryParams := Ok s.
Definition no_params : QueryParams := [].

(** Stand-ins for [path.extname], right on a file name without [/], and
    for [toLowerCase], right on ASCII. *)
Fixpoint last_dot (s : jsstring) : option jsstring :=
  match s with
  | [] => None
  | c :: s' =>
      match last_dot s' with
      | Some e => Some e
      | None => if c =? 46 then Some s else None
      end
  end.
Definition extname (s : jsstring) : jsstring :=
  match last_dot s with
  | Some e => e
  | None => []
  end.
Definition toLowerCase (s : jsstring) : jsstring :=
  map (fun c => if (65 <=? c) && (c <=? 90) then c + 32 else c) s.

(** Four entries of the extension table. *)
Definition types (ext : jsstring) : option jsstring :=
  if str_eqb ext (lit "html") then Some (lit "text/html")
  else if str_eqb ext (lit "gif") then Some (lit "image/gif")
  else if str_eqb ext (lit "png") then Some (lit "image/png")
  else if str_eqb ext (lit "bin") then Some (lit "application/octet-stream")
  else None.

Definition mime_lookup : jsstring -> Mime := lookup extname toLowerCase types.

Definition wwwPath : jsstring := lit "/srv/www".
Definition now : jsstring := lit "Mon, November 2nd 2026 12:00:00 +00:00".

Definition index_html : Buffer := lit "<html><body><h1>Hola</h1></body></html>".
Definition proceso_html : Buffer :=
  lit "<html><body> %%mensaje%% y %%mensaje%% </body></html>".
Definition page404 : Buffer := lit "<h1>404</h1>".
Definition page406 : Buffer := lit "<h1>406</h1>".
Definition page501 : Buffer := lit "<h1>501</h1>".

Definition fs (path : jsstring) : FsNode :=
  if str_eqb path (lit "/srv/www/index.html") then File index_html
  else if str_eqb path (lit "/srv/www/proceso.html") then File proceso_html
  else if str_eqb path (lit "/srv/www/datos.noexiste") then File [0; 1; 2]
  else if str_eqb path (lit "/srv/www/404.html") then File page404
  else if str_eqb path (lit "/srv/www/406.html") then File page406
  else if str_eqb path (lit "/srv/www/501.html") then File page501
  else NoEntry.

Definition Request : Type := Request QueryParams.
Definition parseRequest : jsstring -> Result Request :=
  parseRequest queryString_parse no_params.
Definition createResponse : Request -> IO Response :=
  createResponse wwwPath fs now mime_lookup.
Definition processGet : Request -> IO Response :=
  processGet wwwPath fs now mime_lookup.
Definition processHead : Request -> IO Response :=
  processHead wwwPath fs now mime_lookup.
Definition processPost : Request -> IO Response :=
  processPost wwwPath fs now mime_lookup.

(** A request text: its lines, each followed by CR LF, then the body. *)
Definition text (lines : list string) (body : string) : jsstring :=
  flat_map (fun l => lit l ++ crlf) lines ++ crlf ++ lit body.

Definition request (m target : string) (hs : list (string * string))
    (body : option string) : Request :=
  mkRequest
    (fold_left (fun o h => Obj.set o (lit (fst h)) (VString (lit (snd h))))
               hs Obj.empty)
    (lit m) (lit target) no_params (option_map lit body).

End Demo.

(* ================================================================== *)
(** ** Further notions *)
(* ================================================================== *)

(** The lines that follow the first empty line. *)
Fixpoint body_lines (lines : list jsstring) : list jsstring :=
  match lines with
  | [] => []
  | l :: ls => match l with
               | [] => ls
               | _ => body_lines ls
               end
  end.

(** The last element of a list, if it has one. *)
Fixpoint last_line (lines : list jsstring) : option jsstring :=
  match lines with
  | [] => None
  | [l] => Some l
  | _ :: ls => last_line ls
  end.

(** The value that the last of the lines standing for a header named
    [name] gives it, [undefined] when no line does. *)
Fixpoint last_header (name : jsstring) (lines : list jsstring) : Value :=
  match lines with
  | [] => VUndefined
  | l :: ls =>
      match last_header name ls with
      | VString v => VString v
      | VUndefined =>
          match header_of_line l with
          | Some (n, v) => if str_eqb n name then VString v else VUndefined
          | None => VUndefined
          end
      end
  end.

(** The number of times that [c] stands in [s]. *)
Definition count (c : char16) (s : jsstring) : nat :=
  List.length (filter (N.eqb c) s).

(** The four status lines. *)
Definition status_line (s : jsstring) : Prop :=
  s = lit "200 OK" \/ s = lit "404 NOT FOUND"
  \/ s = lit "406 NOT ACCEPTABLE" \/ s = lit "501 NOT IMPLEMENTED".

(** A text made of ASCII characters only. *)
Definition ascii_only (s : jsstring) : Prop := Forall (fun c => c < 0x80) s.

(** [suffix] ends [s]. *)
Definition ends_with (s suffix : list N) : Prop :=
  exists pre, s = pre ++ suffix.

(** The paths that a request may make the server read: the file it names
    and the three status pages. *)
Definition readable (wwwPath resourcePath path : jsstring) : Prop :=
  path = resourcePath \/ path = wwwPath ++ lit "/404.html"
  \/ path = wwwPath ++ lit "/406.html" \/ path = wwwPath ++ lit "/501.html".

(** The response that goes with a status page. *)
Definition page_response (now status : jsstring) (page : Buffer) : Response :=
  mkResponse status
    (mkHeaders now (lit "MiServidor/1.0") (List.length page)
               (MType (lit "text/html")))
    (Some page).

(** A text in which every [+] has given way to a space. *)
Definition plus_as_space (s : jsstring) : jsstring :=
  map (fun c => if c =? 43 then 32 else c) s.

(** The property that a pair of a form body without escapes adds: the
    text before its first [=] under the text that follows, up to a second
    [=]. *)
Definition plain_property (properties : Obj.t) (prop : jsstring) : Obj.t :=
  let parts := map plus_as_space (split prop (lit "=")) in
  Obj.set properties (nth 0 parts []) (at_index parts 1).

(** The bytes of the body of a response, none when it is absent. *)
Definition body_bytes (r : Response) : Buffer :=
  match res_body r with
  | Some b => b
  | None => []
  end.

(** The lines of the head of a serialized response: the status line,
    the four headers in the order in which the builders write them, and
    the empty line that ends the head. *)
Definition head_lines (r : Response) : list jsstring :=
  [lit "HTTP/1.1 " ++ statusCode r;
   lit "Date: " ++ Date (res_headers r);
   lit "Server: " ++ Server (res_headers r);
   lit "Content-Length: " ++ number_to_string (Content_Length (res_headers r));
   lit "Content-Type: " ++ mime_to_string (Content_Type (res_headers r));
   []].

(** The head itself: every line followed by CR LF. *)
Definition head_text (r : Response) : jsstring :=
  flat_map (fun line => line ++ crlf) (head_lines r).

(** The texts of the status line and of the headers that are not
    numbers. *)
Definition head_fields (r : Response) : list jsstring :=
  [statusCode r; Date (res_headers r); Server (res_headers r);
   mime_to_string (Content_Type (res_headers r))].

(** [post] starts with two hexadecimal digits. *)
Definition two_hex_digits (post : jsstring) : Prop :=
  exists h1 h2 rest,
    post = h1 :: h2 :: rest /\ Uri.hex h1 <> None /\ Uri.hex h2 <> None.

(** A text whose code units are code units of UTF-16. *)
Definition utf16_units (s : jsstring) : Prop := Forall (fun c => c < 0x10000) s.

(** An object whose values are such texts, or [undefined]. *)
Definition string_values (o : Obj.t) : Prop :=
  Forall (fun kv => utf16_units (to_string (snd kv))) o.

(* ================================================================== *)
(** ** Strings: equality, [split] on one code unit *)
(* ================================================================== *)

Lemma str_eqb_refl (a : jsstring) : str_eqb a a = true.
Proof.
  induction a as [|x a IH]; simpl; [reflexivity|].
  now rewrite N.eqb_refl, IH.
Qed.

Lemma str_eqb_eq (a b : jsstring) : str_eqb a b = true <-> a = b.
Proof.
  split; [|intros ->; apply str_eqb_refl].
  revert b; induction a as [|x a IH]; intros [|y b]; simpl; try discriminate.
  - reflexivity.
  - intros H. apply andb_true_iff in H as [Hxy Hab].
    apply N.eqb_eq in Hxy. f_equal; auto.
Qed.

Lemma str_eqb_neq (a b : jsstring) : a <> b -> str_eqb a b = false.
Proof.
  intros H. destruct (str_eqb a b) eqn:E; [|reflexivity].
  apply str_eqb_eq in E. contradiction.
Qed.

Lemma starts_with_one (c x : char16) (s : jsstring) :
  starts_with [c] (x :: s) = (x =? c).
Proof. simpl. now rewrite andb_true_r, N.eqb_sym. Qed.

Lemma split_from_one (c : char16) (s cur : jsstring) :
  split_from [c] 0 cur s
  = (rev cur ++ before_first c s)
      :: match after_first c s with
         | Some r => split_from [c] 0 [] r
         | None => []
         end.
Proof.
  revert cur; induction s as [|x s IH]; intros cur.
  - simpl. now rewrite app_nil_r.
  - cbn [split_from]. rewrite starts_with_one. cbn [before_first after_first].
    destruct (x =? c).
    + now rewrite app_nil_r.
    + rewrite IH. cbn [rev]. now rewrite <- app_assoc.
Qed.

(** [s.split(c)] cuts [s] at its first [c] and splits what follows. *)
Lemma split_one (c : char16) (s : jsstring) :
  split s [c]
  = before_first c s
      :: match after_first c s with
         | Some r => split r [c]
         | None => []
         end.
Proof. unfold split. now rewrite split_from_one. Qed.

Lemma split_from_not_nil (sep : jsstring) (s cur : jsstring) (skip : nat) :
  split_from sep skip cur s <> [].
Proof.
  revert skip cur; induction s as [|x s IH]; intros skip cur; simpl.
  - discriminate.
  - destruct skip; [destruct (starts_with sep (x :: s))|]; auto; discriminate.
Qed.

Lemma fold_left_glue (sep : jsstring) (parts : list jsstring) (hv : jsstring) :
  fold_left (fun hv part => hv ++ sep ++ part) parts hv
  = hv ++ flat_map (fun p => sep ++ p) parts.
Proof.
  revert hv; induction parts as [|p parts IH]; intros hv; simpl.
  - now rewrite app_nil_r.
  - rewrite IH. now rewrite <- !app_assoc.
Qed.

(** Gluing the pieces of [s.split(c)] with [c] gives [s] back. *)
Lemma split_from_glue (c : char16) (s cur : jsstring) :
  match split_from [c] 0 cur s with
  | p :: ps => p ++ flat_map (fun q => c :: q) ps
  | [] => []
  end = rev cur ++ s.
Proof.
  revert cur; induction s as [|x s IH]; intros cur.
  - simpl. reflexivity.
  - cbn [split_from]. rewrite starts_with_one.
    destruct (x =? c) eqn:E.
    + apply N.eqb_eq in E; subst x. cbn [List.length Nat.sub].
      specialize (IH []). cbn [rev app] in IH.
      destruct (split_from [c] 0 [] s) as [|p ps] eqn:Es.
      * now apply split_from_not_nil in Es.
      * cbn [flat_map app]. rewrite IH. reflexivity.
    + rewrite IH. cbn [rev]. now rewrite <- app_assoc.
Qed.

Lemma split_glue (c : char16) (s : jsstring) :
  match split s [c] with
  | p :: ps => p ++ flat_map (fun q => c :: q) ps
  | [] => []
  end = s.
Proof. unfold split. now rewrite split_from_glue. Qed.

Lemma before_first_none (c : char16) (s : jsstring) :
  ~ In c s -> before_first c s = s /\ after_first c s = None.
Proof.
  induction s as [|x s IH]; simpl; intros H; [auto|].
  destruct (x =? c) eqn:E.
  - apply N.eqb_eq in E. exfalso; auto.
  - destruct IH as [-> ->]; auto.
Qed.

Lemma after_first_some (c : char16) (s : jsstring) :
  In c s -> exists r, after_first c s = Some r.
Proof.
  induction s as [|x s IH]; simpl; intros H; [contradiction|].
  destruct (x =? c) eqn:E; [eauto|].
  apply IH. destruct H as [->|H]; [|exact H].
  now rewrite N.eqb_refl in E.
Qed.

Lemma after_first_in (c : char16) (s r : jsstring) :
  after_first c s = Some r -> In c s.
Proof.
  induction s as [|x s IH]; simpl; [discriminate|].
  destruct (x =? c) eqn:E; intros H.
  - apply N.eqb_eq in E. auto.
  - auto.
Qed.

Lemma before_first_app (c : char16) (name raw : jsstring) :
  ~ In c name ->
  before_first c (name ++ c :: raw) = name
  /\ after_first c (name ++ c :: raw) = Some raw.
Proof.
  induction name as [|x name IH]; simpl; intros H.
  - now rewrite N.eqb_refl.
  - destruct (x =? c) eqn:E.
    + apply N.eqb_eq in E. exfalso; auto.
    + destruct IH as [-> ->]; auto.
Qed.

Lemma first_cut (c : char16) (s r : jsstring) :
  after_first c s = Some r ->
  s = before_first c s ++ c :: r /\ ~ In c (before_first c s).
Proof.
  revert r; induction s as [|x s IH]; simpl; intros r; [discriminate|].
  destruct (x =? c) eqn:E.
  - intros [= ->]. apply N.eqb_eq in E; subst. simpl. auto.
  - intros H. destruct (IH _ H) as [Hs Hn]. split.
    + simpl. now rewrite <- Hs.
    + simpl. intros [->|Hin]; [now rewrite N.eqb_refl in E|auto].
Qed.

(* ================================================================== *)
(** ** The header loop of [parseRequest] *)
(* ================================================================== *)

Lemma trim_one_space_glue (raw : jsstring) :
  match split raw [ch ":"] with
  | p :: ps =>
      (if charAt0_is p (ch " ") then substring_from p 1 else p)
        ++ flat_map (fun q => ch ":" :: q) ps
  | [] => []
  end = trim_one_space raw.
Proof.
  pose proof (split_glue (ch ":") raw) as G.
  destruct (split raw [ch ":"]) as [|p ps]; [now subst raw|].
  destruct p as [|x p].
  - cbn [charAt0_is app] in *. subst raw.
    destruct ps as [|q ps]; reflexivity.
  - cbn [charAt0_is substring_from skipn app] in *. subst raw.
    cbn [trim_one_space]. destruct (x =? ch " "); reflexivity.
Qed.

(** One turn of the loop on a line read before the empty line sets the
    header that the line stands for, if it stands for one. *)
Lemma scan_line_header (hs : Obj.t) (bd : option jsstring) (line : jsstring) :
  scan_line (false, hs, bd) line = (str_eqb line [], add_header hs line, bd).
Proof.
  unfold scan_line, add_header, header_of_line. cbn [negb orb].
  change (lit ":") with [ch ":"].
  rewrite split_one.
  destruct (after_first (ch ":") line) as [raw|]; [|reflexivity].
  pose proof (trim_one_space_glue raw) as G.
  destruct (split raw [ch ":"]) as [|p ps] eqn:Es.
  { unfold split in Es. now apply split_from_not_nil in Es. }
  cbn [List.length Nat.ltb Nat.leb nth skipn].
  rewrite fold_left_glue. cbn [app]. do 4 f_equal. exact G.
Qed.

(** After the empty line the headers are left alone. *)
Lemma scan_line_body (hs : Obj.t) (bd : option jsstring) (line : jsstring) :
  scan_line (true, hs, bd) line = (true, hs, Some line).
Proof. reflexivity. Qed.

Lemma scan_lines_body (lines : list jsstring) (hs : Obj.t)
    (bd : option jsstring) :
  snd (fst (fold_left scan_line lines (true, hs, bd))) = hs.
Proof.
  revert bd; induction lines as [|l lines IH]; intros bd; [reflexivity|].
  cbn [fold_left]. rewrite scan_line_body. apply IH.
Qed.

Lemma scan_lines_headers (lines : list jsstring) (hs : Obj.t)
    (bd : option jsstring) :
  snd (fst (fold_left scan_line lines (false, hs, bd)))
  = fold_left add_header (header_lines lines) hs.
Proof.
  revert hs bd; induction lines as [|l lines IH]; intros hs bd; [reflexivity|].
  cbn [fold_left]. rewrite scan_line_header.
  destruct l as [|x l].
  - cbn [str_eqb header_lines fold_left]. apply scan_lines_body.
  - cbn [str_eqb]. apply IH.
Qed.

Section ParseRequest.

Context {QueryParams : Type}.
Variable queryString_parse : jsstring -> Result QueryParams.
Variable no_params : QueryParams.

Lemma headers_of_parseRequest (text : jsstring) (req : Request QueryParams) :
  parseRequest queryString_parse no_params text = Ok req ->
  headers req
  = fold_left add_header (header_lines (split text crlf)) Obj.empty.
Proof.
  unfold parseRequest. intros H.
  destruct (nth_error _ 1) as [target|]; [|discriminate].
  rewrite <- (scan_lines_headers _ _ None).
  destruct (fold_left scan_line _ _) as [[b hs] bd].
  destruct (indexOf target (lit "?")) as [i|].
  - destruct (queryString_parse _); cbn in H; [|discriminate].
    now injection H as <-.
  - cbn in H. now injection H as <-.
Qed.

(** A request text that parses has a request line that is not empty. *)
Lemma first_line_of_parseRequest (text : jsstring) (req : Request QueryParams) :
  parseRequest queryString_parse no_params text = Ok req ->
  exists l0 rest, split text crlf = l0 :: rest /\ l0 <> [].
Proof.
  unfold parseRequest. intros H.
  destruct (split text crlf) as [|l0 rest] eqn:Es.
  { unfold split in Es. now apply split_from_not_nil in Es. }
  exists l0, rest. split; [reflexivity|].
  intros ->. cbn in H. discriminate.
Qed.

End ParseRequest.

(* ================================================================== *)
(** ** UTF-8: decoding well-formed bytes loses nothing *)
(* ================================================================== *)

Module Utf8Facts.
Import Utf8.

Ltac Zify.zify_post_hook ::= Z.to_euclidean_division_equations.

Lemma in_range_spec (lo hi b : N) :
  in_range lo hi b = true <-> lo <= b <= hi.
Proof.
  unfold in_range. rewrite andb_true_iff, !N.leb_le. tauto.
Qed.

Lemma in_range_false (lo hi b : N) :
  in_range lo hi b = false <-> b < lo \/ hi < b.
Proof.
  unfold in_range. rewrite andb_false_iff, !N.leb_gt. tauto.
Qed.

Lemma mod64_cont (b : N) : 0x80 <= b <= 0xBF -> b mod 64 = b - 0x80.
Proof. intros. lia. Qed.

Lemma mod32_lead (b : N) : 0xC0 <= b <= 0xDF -> b mod 32 = b - 0xC0.
Proof. intros. lia. Qed.

Lemma mod16_lead (b : N) : 0xE0 <= b <= 0xEF -> b mod 16 = b - 0xE0.
Proof. intros. lia. Qed.

Lemma mod8_lead (b : N) : 0xF0 <= b <= 0xF7 -> b mod 8 = b - 0xF0.
Proof. intros. lia. Qed.

Lemma lower2_cases (b0 : byte) :
  (b0 = 0xE0 /\ lower2 b0 = 0xA0) \/ (b0 = 0xF0 /\ lower2 b0 = 0x90)
  \/ (b0 <> 0xE0 /\ b0 <> 0xF0 /\ lower2 b0 = 0x80).
Proof.
  unfold lower2.
  destruct (N.eqb_spec b0 0xE0); [auto|].
  destruct (N.eqb_spec b0 0xF0); auto.
Qed.

Lemma upper2_cases (b0 : byte) :
  (b0 = 0xED /\ upper2 b0 = 0x9F) \/ (b0 = 0xF4 /\ upper2 b0 = 0x8F)
  \/ (b0 <> 0xED /\ b0 <> 0xF4 /\ upper2 b0 = 0xBF).
Proof.
  unfold upper2.
  destruct (N.eqb_spec b0 0xED); [auto|].
  destruct (N.eqb_spec b0 0xF4); auto.
Qed.

Lemma encode_utf16 (cp : N) (s : jsstring) :
  scalar cp -> encode (utf16 cp ++ s) = encode_cp cp ++ encode s.
Proof.
  intros [Hs Hm]. unfold utf16.
  destruct (N.ltb_spec cp 0x10000) as [Hlt|Hge].
  - cbn [app encode]. unfold is_high_surrogate, is_low_surrogate.
    assert (in_range 0xD800 0xDBFF cp = false) as -> by (apply in_range_false; lia).
    assert (in_range 0xDC00 0xDFFF cp = false) as -> by (apply in_range_false; lia).
    reflexivity.
  - cbn [app encode]. unfold is_high_surrogate, is_low_surrogate.
    assert (in_range 0xD800 0xDBFF (0xD800 + (cp - 0x10000) / 1024) = true)
      as -> by (apply in_range_spec; lia).
    assert (in_range 0xDC00 0xDFFF (0xDC00 + (cp - 0x10000) mod 1024) = true)
      as -> by (apply in_range_spec; lia).
    do 2 f_equal. lia.
Qed.

Lemma encode_cp2 (b0 b1 : byte) :
  0xC2 <= b0 <= 0xDF -> 0x80 <= b1 <= 0xBF ->
  scalar (cp2 b0 b1) /\ encode_cp (cp2 b0 b1) = [b0; b1].
Proof.
  intros H0 H1. unfold cp2, scalar, encode_cp.
  rewrite mod32_lead, mod64_cont by lia.
  split; [lia|].
  destruct (N.ltb_spec ((b0 - 192) * 64 + (b1 - 128)) 0x80); [lia|].
  destruct (N.ltb_spec ((b0 - 192) * 64 + (b1 - 128)) 0x800); [|lia].
  f_equal; [|f_equal]; lia.
Qed.

Lemma encode_cp3 (b0 b1 b2 : byte) :
  0xE0 <= b0 <= 0xEF -> lower2 b0 <= b1 <= upper2 b0 -> 0x80 <= b2 <= 0xBF ->
  scalar (cp3 b0 b1 b2) /\ encode_cp (cp3 b0 b1 b2) = [b0; b1; b2].
Proof.
  intros H0 H1 H2. unfold cp3, scalar, encode_cp.
  assert (0x80 <= b1 <= 0xBF /\ (b0 = 0xE0 -> 0xA0 <= b1)
          /\ (b0 = 0xED -> b1 <= 0x9F)) as (H1' & Hlo & Hhi).
  { destruct (lower2_cases b0) as [[? E]|[[? E]|(? & ? & E)]];
      destruct (upper2_cases b0) as [[? F]|[[? F]|(? & ? & F)]];
      rewrite E, F in H1; lia. }
  clear H1.
  rewrite mod16_lead, !mod64_cont by lia.
  set (cp := ((b0 - 224) * 64 + (b1 - 128)) * 64 + (b2 - 128)).
  assert (0x800 <= cp < 0x10000) as Hcp by (subst cp; lia).
  assert (cp < 0xD800 \/ 0xE000 <= cp) as Hsur by (subst cp; lia).
  split; [lia|].
  destruct (N.ltb_spec cp 0x80); [lia|].
  destruct (N.ltb_spec cp 0x800); [lia|].
  destruct (N.ltb_spec cp 0x10000); [|lia].
  subst cp. f_equal; [|f_equal; [|f_equal]]; lia.
Qed.

Lemma encode_cp4 (b0 b1 b2 b3 : byte) :
  0xF0 <= b0 <= 0xF4 -> lower2 b0 <= b1 <= upper2 b0 ->
  0x80 <= b2 <= 0xBF -> 0x80 <= b3 <= 0xBF ->
  scalar (cp4 b0 b1 b2 b3) /\ encode_cp (cp4 b0 b1 b2 b3) = [b0; b1; b2; b3].
Proof.
  intros H0 H1 H2 H3. unfold cp4, scalar, encode_cp.
  assert (0x80 <= b1 <= 0xBF /\ (b0 = 0xF0 -> 0x90 <= b1)
          /\ (b0 = 0xF4 -> b1 <= 0x8F)) as (H1' & Hlo & Hhi).
  { destruct (lower2_cases b0) as [[? E]|[[? E]|(? & ? & E)]];
      destruct (upper2_cases b0) as [[? F]|[[? F]|(? & ? & F)]];
      rewrite E, F in H1; lia. }
  clear H1.
  rewrite mod8_lead, !mod64_cont by lia.
  set (cp := (((b0 - 240) * 64 + (b1 - 128)) * 64 + (b2 - 128)) * 64
             + (b3 - 128)).
  assert (0x10000 <= cp < 0x110000) as Hcp by (subst cp; lia).
  split; [lia|].
  destruct (N.ltb_spec cp 0x80); [lia|].
  destruct (N.ltb_spec cp 0x800); [lia|].
  destruct (N.ltb_spec cp 0x10000); [lia|].
  subst cp. f_equal; [|f_equal; [|f_equal; [|f_equal]]]; lia.
Qed.

Lemma encode_ascii (b : N) (s : jsstring) :
  b < 0x80 -> encode (b :: s) = b :: encode s.
Proof.
  intros H. cbn [encode]. unfold is_high_surrogate, is_low_surrogate.
  assert (in_range 0xD800 0xDBFF b = false) as -> by (apply in_range_false; lia).
  assert (in_range 0xDC00 0xDFFF b = false) as -> by (apply in_range_false; lia).
  unfold encode_cp. destruct (N.ltb_spec b 0x80); [reflexivity|lia].
Qed.

Lemma roundtrip_bounded (n : nat) (bs : Buffer) :
  (List.length bs <= n)%nat -> well_formed bs = true ->
  encode (decode bs) = bs.
Proof.
  revert bs; induction n as [|n IH]; intros bs Hn Hwf.
  { destruct bs; [reflexivity|simpl in Hn; lia]. }
  destruct bs as [|b0 r0]; [reflexivity|].
  cbn [well_formed decode] in *.
  destruct (N.ltb_spec b0 0x80) as [Ha|Ha].
  { rewrite encode_ascii by exact Ha. f_equal. apply IH; [simpl in Hn; lia|exact Hwf]. }
  destruct (in_range 0xC2 0xDF b0) eqn:E2.
  { apply in_range_spec in E2.
    destruct r0 as [|b1 r1]; [discriminate|].
    apply andb_true_iff in Hwf as [C1 Hwf]. rewrite C1.
    apply in_range_spec in C1.
    destruct (encode_cp2 b0 b1 E2 C1) as [Hs He].
    rewrite encode_utf16, He by exact Hs. cbn [app]. do 2 f_equal.
    apply IH; [simpl in Hn; lia|exact Hwf]. }
  destruct (in_range 0xE0 0xEF b0) eqn:E3.
  { apply in_range_spec in E3.
    destruct r0 as [|b1 [|b2 r2]]; try discriminate.
    apply andb_true_iff in Hwf as [Hwf W]. apply andb_true_iff in Hwf as [C1 C2].
    rewrite C1, C2. apply in_range_spec in C1, C2.
    destruct (encode_cp3 b0 b1 b2 E3 C1 C2) as [Hs He].
    rewrite encode_utf16, He by exact Hs. cbn [app]. do 3 f_equal.
    apply IH; [simpl in Hn; lia|exact W]. }
  destruct (in_range 0xF0 0xF4 b0) eqn:E4; [|discriminate].
  apply in_range_spec in E4.
  destruct r0 as [|b1 [|b2 [|b3 r3]]]; try discriminate.
  apply andb_true_iff in Hwf as [Hwf W]. apply andb_true_iff in Hwf as [Hwf C3].
  apply andb_true_iff in Hwf as [C1 C2].
  rewrite C1, C2, C3. apply in_range_spec in C1, C2, C3.
  destruct (encode_cp4 b0 b1 b2 b3 E4 C1 C2 C3) as [Hs He].
  rewrite encode_utf16, He by exact Hs. cbn [app]. do 4 f_equal.
  apply IH; [simpl in Hn; lia|exact W].
Qed.

(** [Buffer.from(buf.toString())] is [buf] when [buf] is well-formed. *)
Lemma roundtrip (bs : Buffer) :
  well_formed bs = true -> encode (decode bs) = bs.
Proof. apply (roundtrip_bounded (List.length bs)). lia. Qed.

End Utf8Facts.

(* ================================================================== *)
(** ** Objects *)
(* ================================================================== *)

Lemma get_absent (o : Obj.t) (k : jsstring) :
  Obj.has o k = false -> Obj.get o k = VUndefined.
Proof.
  induction o as [|[k' v'] o IH]; simpl; [reflexivity|].
  intros H. apply orb_false_iff in H as [-> H]. now apply IH.
Qed.

Lemma has_update (o : Obj.t) (k : jsstring) (v : Value) :
  Obj.has (Obj.update o k v) k = true.
Proof.
  induction o as [|[k' v'] o IH]; simpl.
  - now rewrite str_eqb_refl.
  - destruct (str_eqb k' k) eqn:E; simpl; rewrite E; [reflexivity|exact IH].
Qed.

Lemma has_update_other (o : Obj.t) (k k' : jsstring) (v : Value) :
  Obj.has o k = true -> Obj.has (Obj.update o k' v) k = true.
Proof.
  induction o as [|[k0 v0] o IH]; simpl; [discriminate|].
  intros H. destruct (str_eqb k0 k') eqn:E; simpl.
  - exact H.
  - apply orb_true_iff in H as [H|H]; [now rewrite H|].
    rewrite IH by exact H. apply orb_true_r.
Qed.

Lemma has_set (o : Obj.t) (k : jsstring) (v : Value) :
  k <> Obj.proto_key -> Obj.has (Obj.set o k v) k = true.
Proof.
  intros H. unfold Obj.set. rewrite str_eqb_neq by exact H. apply has_update.
Qed.

Lemma has_set_other (o : Obj.t) (k k' : jsstring) (v : Value) :
  Obj.has o k = true -> Obj.has (Obj.set o k' v) k = true.
Proof.
  intros H. unfold Obj.set. destruct (str_eqb k' Obj.proto_key); [exact H|].
  now apply has_update_other.
Qed.

Lemma has_add_header (hs : Obj.t) (k line : jsstring) :
  Obj.has hs k = true -> Obj.has (add_header hs line) k = true.
Proof.
  intros H. unfold add_header.
  destruct (header_of_line line) as [[name value]|]; [|exact H].
  now apply has_set_other.
Qed.

Lemma has_add_headers (lines : list jsstring) (hs : Obj.t) (k : jsstring) :
  Obj.has hs k = true -> Obj.has (fold_left add_header lines hs) k = true.
Proof.
  revert hs; induction lines as [|l lines IH]; intros hs H; [exact H|].
  cbn [fold_left]. apply IH. now apply has_add_header.
Qed.

(* ================================================================== *)
(** ** [indexOf] and [replace] *)
(* ================================================================== *)


Lemma starts_with_app (p r : jsstring) : starts_with p (p ++ r) = true.
Proof.
  induction p as [|x p IH]; simpl; [reflexivity|].
  now rewrite N.eqb_refl, IH.
Qed.

Lemma starts_with_split (p s : jsstring) :
  starts_with p s = true -> s = p ++ skipn (List.length p) s.
Proof.
  revert s; induction p as [|x p IH]; intros s; simpl; [reflexivity|].
  destruct s as [|y s]; [discriminate|].
  intros H. apply andb_true_iff in H as [Hxy Hp].
  apply N.eqb_eq in Hxy. subst y. f_equal. now apply IH.
Qed.

(** [indexOf] finds an occurrence, and no occurrence starts before it. *)
Lemma indexOf_some (s p : jsstring) (i : nat) :
  indexOf s p = Some i ->
  List.length (firstn i s) = i
  /\ s = firstn i s ++ p ++ skipn (i + List.length p) s
  /\ forall pre post, s = pre ++ p ++ post -> (i <= List.length pre)%nat.
Proof.
  revert i; induction s as [|x s IH]; intros i; cbn [indexOf].
  - destruct (starts_with p []) eqn:E; [|discriminate].
    intros [= <-]. cbn. repeat split.
    + apply starts_with_split in E. exact E.
    + intros; lia.
  - destruct (starts_with p (x :: s)) eqn:E.
    + intros [= <-]. cbn [firstn skipn app Nat.add]. repeat split.
      * now apply starts_with_split.
      * intros; lia.
    + destruct (indexOf s p) as [j|] eqn:Ej; [|discriminate].
      intros [= <-]. destruct (IH j eq_refl) as (Hl & Hs & Hmin).
      cbn [firstn skipn app Nat.add List.length]. repeat split.
      * now rewrite Hl.
      * now rewrite <- Hs.
      * intros [|y pre] post Hpre.
        -- cbn [app] in Hpre. rewrite Hpre, starts_with_app in E. discriminate.
        -- cbn [app] in Hpre. injection Hpre as _ Hpre.
           apply Hmin in Hpre. cbn [List.length]. lia.
Qed.

Lemma indexOf_none (s p : jsstring) :
  indexOf s p = None -> forall pre post, s <> pre ++ p ++ post.
Proof.
  induction s as [|x s IH]; cbn [indexOf].
  - destruct (starts_with p []) eqn:E; [discriminate|].
    intros _ pre post H. destruct pre; [|discriminate].
    cbn [app] in H. rewrite H, starts_with_app in E. discriminate.
  - destruct (starts_with p (x :: s)) eqn:E; [discriminate|].
    destruct (indexOf s p) eqn:Ej; [discriminate|].
    intros _ [|y pre] post H.
    + cbn [app] in H. rewrite H, starts_with_app in E. discriminate.
    + cbn [app] in H. injection H as _ H. now apply (IH eq_refl pre post).
Qed.

Lemma indexOf_none_iff (s p : jsstring) :
  indexOf s p = None <-> ~ occurs_in p s.
Proof.
  split.
  - intros H (pre & post & Hs). now apply (indexOf_none s p H pre post).
  - intros H. destruct (indexOf s p) as [i|] eqn:E; [|reflexivity].
    apply indexOf_some in E as (_ & Hs & _). exfalso. apply H.
    now exists (firstn i s), (skipn (i + List.length p) s).
Qed.



(* ================================================================== *)
(** ** Objects: reading what was written *)
(* ================================================================== *)

Lemma get_update_same (o : Obj.t) (k : jsstring) (v : Value) :
  Obj.get (Obj.update o k v) k = v.
Proof.
  induction o as [|[k' v'] o IH]; simpl.
  - now rewrite str_eqb_refl.
  - destruct (str_eqb k' k) eqn:E; simpl; now rewrite E.
Qed.

Lemma str_eqb_trans_false (a b c : jsstring) :
  str_eqb a b = true -> b <> c -> str_eqb a c = false.
Proof.
  intros Hab Hbc. apply str_eqb_eq in Hab. subst b. now apply str_eqb_neq.
Qed.

Lemma get_update_other (o : Obj.t) (k k' : jsstring) (v : Value) :
  k <> k' -> Obj.get (Obj.update o k v) k' = Obj.get o k'.
Proof.
  intros Hk. induction o as [|[k0 v0] o IH]; simpl.
  - now rewrite str_eqb_neq.
  - destruct (str_eqb k0 k) eqn:E; simpl.
    + now rewrite (str_eqb_trans_false _ _ _ E Hk).
    + now rewrite IH.
Qed.

Lemma get_set_same (o : Obj.t) (k : jsstring) (v : Value) :
  k <> Obj.proto_key -> Obj.get (Obj.set o k v) k = v.
Proof.
  intros H. unfold Obj.set. rewrite str_eqb_neq by exact H.
  apply get_update_same.
Qed.

Lemma get_set_other (o : Obj.t) (k k' : jsstring) (v : Value) :
  k <> k' -> Obj.get (Obj.set o k v) k' = Obj.get o k'.
Proof.
  intros H. unfold Obj.set. destruct (str_eqb k Obj.proto_key); [reflexivity|].
  now apply get_update_other.
Qed.

Lemma get_add_headers (lines : list jsstring) (hs : Obj.t) (name : jsstring) :
  name <> Obj.proto_key ->
  Obj.get (fold_left add_header lines hs) name
  = match last_header name lines with
    | VString v => VString v
    | VUndefined => Obj.get hs name
    end.
Proof.
  intros Hname. revert hs; induction lines as [|l lines IH]; intros hs.
  - reflexivity.
  - cbn [fold_left last_header]. rewrite IH.
    destruct (last_header name lines) as [|v]; [|reflexivity].
    unfold add_header. destruct (header_of_line l) as [[n v]|]; [|reflexivity].
    destruct (str_eqb n name) eqn:E.
    + apply str_eqb_eq in E. subst n. now apply get_set_same.
    + apply get_set_other. intros ->. now rewrite str_eqb_refl in E.
Qed.

Lemma has_update_neq (o : Obj.t) (k k' : jsstring) (v : Value) :
  k <> k' -> Obj.has (Obj.update o k v) k' = Obj.has o k'.
Proof.
  intros Hk. induction o as [|[k0 v0] o IH]; simpl.
  - now rewrite str_eqb_neq.
  - destruct (str_eqb k0 k) eqn:E; simpl; [reflexivity|]. now rewrite IH.
Qed.

Lemma has_set_neq (o : Obj.t) (k k' : jsstring) (v : Value) :
  k <> k' -> Obj.has (Obj.set o k v) k' = Obj.has o k'.
Proof.
  intros H. unfold Obj.set. destruct (str_eqb k Obj.proto_key); [reflexivity|].
  now apply has_update_neq.
Qed.

(** No assignment makes a property named [__proto__]. *)
Lemma has_set_proto (o : Obj.t) (k : jsstring) (v : Value) :
  Obj.has (Obj.set o k v) Obj.proto_key = Obj.has o Obj.proto_key.
Proof.
  unfold Obj.set. destruct (str_eqb k Obj.proto_key) eqn:E; [reflexivity|].
  apply has_update_neq. intros ->. now rewrite str_eqb_refl in E.
Qed.

Lemma has_add_headers_proto (lines : list jsstring) (hs : Obj.t) :
  Obj.has (fold_left add_header lines hs) Obj.proto_key
  = Obj.has hs Obj.proto_key.
Proof.
  revert hs; induction lines as [|l lines IH]; intros hs; [reflexivity|].
  cbn [fold_left]. rewrite IH. unfold add_header.
  destruct (header_of_line l) as [[n v]|]; [|reflexivity].
  apply has_set_proto.
Qed.

Lemma has_add_headers_last (lines : list jsstring) (hs : Obj.t)
    (name : jsstring) :
  name <> Obj.proto_key ->
  Obj.has (fold_left add_header lines hs) name
  = match last_header name lines with
    | VString _ => true
    | VUndefined => Obj.has hs name
    end.
Proof.
  intros Hname. revert hs; induction lines as [|l lines IH]; intros hs.
  - reflexivity.
  - cbn [fold_left last_header]. rewrite IH.
    destruct (last_header name lines) as [|v]; [|reflexivity].
    unfold add_header. destruct (header_of_line l) as [[n v]|]; [|reflexivity].
    destruct (str_eqb n name) eqn:E.
    + apply str_eqb_eq in E. subst n. now apply has_set.
    + apply has_set_neq. intros ->. now rewrite str_eqb_refl in E.
Qed.

(* ================================================================== *)
(** ** The body that [parseRequest] keeps *)
(* ================================================================== *)

Lemma last_line_cons (l : jsstring) (lines : list jsstring) :
  last_line (l :: lines) <> None.
Proof.
  revert l; induction lines as [|j lines IH]; intros l; [discriminate|].
  exact (IH j).
Qed.

Lemma scan_lines_after_blank (lines : list jsstring) (hs : Obj.t)
    (bd : option jsstring) :
  snd (fold_left scan_line lines (true, hs, bd))
  = match last_line lines with
    | Some l => Some l
    | None => bd
    end.
Proof.
  revert bd; induction lines as [|l lines IH]; intros bd; [reflexivity|].
  cbn [fold_left]. rewrite scan_line_body, IH.
  destruct lines as [|j lines]; [reflexivity|].
  change (last_line (l :: j :: lines)) with (last_line (j :: lines)).
  pose proof (last_line_cons j lines) as H.
  now destruct (last_line (j :: lines)).
Qed.

Lemma scan_lines_request_body (lines : list jsstring) (hs : Obj.t) :
  snd (fold_left scan_line lines (false, hs, None))
  = last_line (body_lines lines).
Proof.
  revert hs; induction lines as [|l lines IH]; intros hs; [reflexivity|].
  cbn [fold_left]. rewrite scan_line_header.
  destruct l as [|x l].
  - cbn [str_eqb body_lines]. rewrite scan_lines_after_blank.
    now destruct (last_line lines).
  - cbn [str_eqb body_lines]. apply IH.
Qed.

(* ================================================================== *)
(** ** [indexOf] of one code unit *)
(* ================================================================== *)

Lemma indexOf_one (c : char16) (s : jsstring) :
  indexOf s [c]
  = match after_first c s with
    | Some _ => Some (List.length (before_first c s))
    | None => None
    end.
Proof.
  induction s as [|x s IH]; [reflexivity|].
  cbn [indexOf]. rewrite starts_with_one. cbn [after_first before_first].
  destruct (x =? c); [reflexivity|].
  rewrite IH. now destruct (after_first c s).
Qed.

Lemma before_first_not_in (c : char16) (s : jsstring) :
  ~ In c (before_first c s).
Proof.
  induction s as [|x s IH]; simpl; [tauto|].
  destruct (N.eqb_spec x c); simpl; [tauto|]. intros [H|H]; auto.
Qed.

Lemma firstn_before_first (c : char16) (s : jsstring) :
  firstn (List.length (before_first c s)) s = before_first c s.
Proof.
  induction s as [|x s IH]; simpl; [reflexivity|].
  destruct (x =? c); simpl; [reflexivity|]. now rewrite IH.
Qed.

(** [s.substring(0, s.indexOf(c))] when [c] is in [s], and [s] itself
    when it is not, is the text of [s] before its first [c]. *)
Lemma cut_at_indexOf (c : char16) (s : jsstring) :
  match indexOf s [c] with
  | Some i => substring s 0 i
  | None => s
  end = before_first c s.
Proof.
  rewrite indexOf_one. destruct (after_first c s) as [r|] eqn:E.
  - unfold substring. cbn [skipn]. rewrite Nat.sub_0_r.
    apply firstn_before_first.
  - symmetry. apply before_first_none. intros H.
    apply after_first_some in H as [r Hr]. congruence.
Qed.

(* ================================================================== *)
(** ** [trim] and the pieces of [split] *)
(* ================================================================== *)

Lemma trim_start_app_stop (x y : jsstring) (c : char16) :
  is_js_space c = false -> trim_start (x ++ c :: y) = trim_start x ++ c :: y.
Proof.
  intros Hc. induction x as [|a x IH]; cbn [app trim_start].
  - now rewrite Hc.
  - destruct (is_js_space a); [exact IH|reflexivity].
Qed.

Lemma trim_app_stop (x y : jsstring) (c : char16) :
  is_js_space c = false ->
  trim (x ++ c :: y) = trim_start x ++ c :: rev (trim_start (rev y)).
Proof.
  intros Hc. unfold trim.
  rewrite trim_start_app_stop by exact Hc.
  rewrite rev_app_distr. cbn [rev]. rewrite <- app_assoc. cbn [app].
  rewrite trim_start_app_stop by exact Hc.
  rewrite rev_app_distr. cbn [rev]. rewrite rev_involutive, <- app_assoc.
  reflexivity.
Qed.

Lemma trim_start_in (x : char16) (s : jsstring) :
  In x (trim_start s) -> In x s.
Proof.
  induction s as [|a s IH]; cbn [trim_start]; [tauto|].
  destruct (is_js_space a); [right; auto|tauto].
Qed.

Lemma trim_in (x : char16) (s : jsstring) : In x (trim s) -> In x s.
Proof.
  unfold trim. intros H.
  apply in_rev, trim_start_in, in_rev, trim_start_in in H. exact H.
Qed.

Lemma before_first_in (c x : char16) (s : jsstring) :
  In x (before_first c s) -> In x s.
Proof.
  induction s as [|a s IH]; cbn [before_first]; [tauto|].
  destruct (a =? c); [contradiction|]. intros [H|H]; [now left|right; auto].
Qed.

Lemma count_app (c : char16) (a b : jsstring) :
  count c (a ++ b) = (count c a + count c b)%nat.
Proof. unfold count. now rewrite filter_app, length_app. Qed.

Lemma count_zero (c : char16) (s : jsstring) : ~ In c s -> count c s = 0%nat.
Proof.
  unfold count. induction s as [|x s IH]; intros H; [reflexivity|].
  cbn [filter]. destruct (N.eqb_spec c x) as [->|_].
  - exfalso. apply H. now left.
  - apply IH. intros Hin. apply H. now right.
Qed.

Lemma split_from_length (c : char16) (s cur : jsstring) :
  List.length (split_from [c] 0 cur s) = S (count c s).
Proof.
  unfold count. revert cur; induction s as [|x s IH]; intros cur;
    [reflexivity|].
  cbn [split_from filter]. rewrite starts_with_one, N.eqb_sym.
  destruct (c =? x); cbn [List.length Nat.sub]; now rewrite IH.
Qed.

(** [s.split(c)] has one piece more than [s] has [c]. *)
Lemma split_length (c : char16) (s : jsstring) :
  List.length (split s [c]) = S (count c s).
Proof. apply split_from_length. Qed.

Lemma split_from_pieces (c : char16) (s cur part : jsstring) :
  In part (split_from [c] 0 cur s) ->
  (~ In c cur -> ~ In c part)
  /\ forall x, In x part -> In x cur \/ In x s.
Proof.
  revert cur; induction s as [|x s IH]; intros cur.
  - cbn [split_from]. intros [<-|[]]. split.
    + intros H Hin. apply H. now apply in_rev.
    + intros y Hy. left. now apply in_rev.
  - cbn [split_from]. rewrite starts_with_one.
    destruct (N.eqb_spec x c) as [->|Hxc]; cbn [List.length Nat.sub].
    + intros [<-|Hin].
      * split.
        -- intros H Hin. apply H. now apply in_rev.
        -- intros y Hy. left. now apply in_rev.
      * destruct (IH [] Hin) as [Hno Hsub]. split.
        -- intros _. apply Hno. tauto.
        -- intros y Hy. destruct (Hsub y Hy) as [[]|H]. right. now right.
    + intros Hin. destruct (IH (x :: cur) Hin) as [Hno Hsub]. split.
      * intros H. apply Hno. intros [->|H']; [now apply Hxc|auto].
      * intros y Hy. destruct (Hsub y Hy) as [[->|H]|H].
        -- right. now left.
        -- now left.
        -- right. now right.
Qed.

(** A piece of [s.split(c)] holds no [c], and holds code units of [s]
    only. *)
Lemma split_pieces (c : char16) (s part : jsstring) :
  In part (split s [c]) ->
  ~ In c part /\ forall x, In x part -> In x s.
Proof.
  intros H. destruct (split_from_pieces c s [] part H) as [Hno Hsub]. split.
  - apply Hno. tauto.
  - intros x Hx. destruct (Hsub x Hx) as [[]|Hs]. exact Hs.
Qed.

(** Case analysis on what a goal matches on, innermost first. *)
Ltac case_one :=
  match goal with
  | |- context [match ?x with _ => _ end] =>
      lazymatch x with
      | context [match _ with _ => _ end] => fail
      | _ => destruct x eqn:?
      end
  end.

Ltac case_all := repeat (cbn -[lit]; case_one); cbn -[lit].

(* ================================================================== *)
(** ** [decodeURIComponent] on a text without escapes *)
(* ================================================================== *)

Lemma tokens_plain (s : jsstring) :
  ~ In 37 s ->
  Uri.tokens (plus_to_percent20 s)
  = Ok (map (fun c => if c =? 43 then Uri.Octet 32 else Uri.Lit c) s).
Proof.
  induction s as [|c s IH]; intros H; [reflexivity|].
  assert (~ In 37 s) as Hs by (intros Hin; apply H; now right).
  assert (c <> 37) as Hc by (intros ->; apply H; now left).
  cbn [plus_to_percent20 flat_map map].
  destruct (N.eqb_spec c 43) as [->|Hp].
  - cbn [app Uri.tokens]. change (37 =? 37) with true. cbv iota.
    change (Uri.hex 50) with (Some 2). change (Uri.hex 48) with (Some 0).
    cbv iota. fold (plus_to_percent20 s). rewrite (IH Hs). reflexivity.
  - cbn [app Uri.tokens]. destruct (N.eqb_spec c 37); [contradiction|].
    fold (plus_to_percent20 s). rewrite (IH Hs). reflexivity.
Qed.

Lemma of_tokens_plain (s : jsstring) :
  Uri.of_tokens
    (map (fun c => if c =? 43 then Uri.Octet 32 else Uri.Lit c) s)
  = Ok (plus_as_space s).
Proof.
  induction s as [|c s IH]; [reflexivity|].
  cbn [map plus_as_space]. destruct (c =? 43).
  - cbn [Uri.of_tokens]. change (32 <? 128) with true. cbv iota.
    rewrite IH. reflexivity.
  - cbn [Uri.of_tokens]. rewrite IH. reflexivity.
Qed.

(** On a text without [%], decoding changes nothing but the [+], which
    become spaces. *)
Lemma form_decode_plain (s : jsstring) :
  ~ In 37 s -> form_decode s = Ok (plus_as_space s).
Proof.
  intros H. unfold form_decode, Uri.decodeURIComponent.
  rewrite (tokens_plain s H). cbn [rbind]. apply of_tokens_plain.
Qed.

Lemma map_result_ok {A B} (f : A -> Result B) (g : A -> B) (xs : list A) :
  (forall x, In x xs -> f x = Ok (g x)) ->
  map_result f xs = Ok (map g xs).
Proof.
  induction xs as [|x xs IH]; intros H; [reflexivity|].
  cbn [map_result map]. rewrite (H x (or_introl eq_refl)). cbn [rbind].
  rewrite IH; [reflexivity|]. intros y Hy. apply H. now right.
Qed.

Lemma add_property_plain (properties : Obj.t) (prop : jsstring) :
  ~ In 37 prop -> add_property properties prop = Ok (plain_property properties prop).
Proof.
  intros H. unfold add_property, plain_property.
  change (fun part => Uri.decodeURIComponent (plus_to_percent20 part))
    with form_decode.
  rewrite (map_result_ok form_decode plus_as_space); [reflexivity|].
  intros part Hpart. apply form_decode_plain.
  change (lit "=") with [ch "="] in Hpart.
  intros Hin. apply H. now apply (proj2 (split_pieces _ _ _ Hpart)).
Qed.

Lemma add_properties_plain (props : list jsstring) (properties : Obj.t) :
  (forall prop, In prop props -> ~ In 37 prop) ->
  fold_left (fun acc prop => rbind acc (fun ps => add_property ps prop))
            props (Ok properties)
  = Ok (fold_left plain_property props properties).
Proof.
  revert properties; induction props as [|prop props IH]; intros properties H;
    [reflexivity|].
  cbn [fold_left rbind]. rewrite add_property_plain by (apply H; now left).
  apply IH. intros p Hp. apply H. now right.
Qed.

(* ================================================================== *)
(** ** [Buffer.from] on ASCII text *)
(* ================================================================== *)

Lemma encode_ascii_app (a s : jsstring) :
  ascii_only a -> Utf8.encode (a ++ s) = a ++ Utf8.encode s.
Proof.
  induction 1 as [|c a Hc Ha IH]; [reflexivity|].
  cbn [app]. rewrite Utf8Facts.encode_ascii by exact Hc. now rewrite IH.
Qed.

Lemma encode_ascii_only (a : jsstring) : ascii_only a -> Utf8.encode a = a.
Proof.
  intros H. rewrite <- (app_nil_r a) at 1.
  rewrite encode_ascii_app by exact H. apply app_nil_r.
Qed.

Lemma encode_cons_ascii_after (c d : char16) (t : jsstring) :
  d < 0x80 ->
  Utf8.encode (c :: d :: t) = Utf8.encode [c] ++ Utf8.encode (d :: t).
Proof.
  intros Hd. cbn [Utf8.encode].
  assert (Utf8.is_low_surrogate d = false) as ->.
  { apply Utf8Facts.in_range_false. lia. }
  destruct (Utf8.is_high_surrogate c); [reflexivity|].
  destruct (Utf8.is_low_surrogate c); now rewrite app_nil_r.
Qed.

Lemma encode_two (c c' : char16) (t : jsstring) :
  Utf8.encode (c :: c' :: t)
  = if Utf8.is_high_surrogate c then
      if Utf8.is_low_surrogate c'
      then Utf8.encode_cp (0x10000 + (c - 0xD800) * 1024 + (c' - 0xDC00))
             ++ Utf8.encode t
      else Utf8.encode_cp Utf8.replacement ++ Utf8.encode (c' :: t)
    else if Utf8.is_low_surrogate c
         then Utf8.encode_cp Utf8.replacement ++ Utf8.encode (c' :: t)
         else Utf8.encode_cp c ++ Utf8.encode (c' :: t).
Proof. reflexivity. Qed.

(** ASCII text that follows any text is encoded as itself. *)
Lemma encode_app_ascii (s a : jsstring) :
  ascii_only a -> Utf8.encode (s ++ a) = Utf8.encode s ++ a.
Proof.
  intros Ha. destruct a as [|d a].
  { now rewrite !app_nil_r. }
  assert (d < 0x80) as Hd by now inversion Ha.
  assert (Utf8.encode (d :: a) = d :: a) as Ea by now apply encode_ascii_only.
  assert (forall n s, (List.length s <= n)%nat ->
                      Utf8.encode (s ++ d :: a) = Utf8.encode s ++ d :: a) as L.
  { induction n as [|n IH]; intros s0 Hn.
    - destruct s0; [exact Ea|simpl in Hn; lia].
    - destruct s0 as [|c [|c' s']].
      + exact Ea.
      + cbn [app]. rewrite encode_cons_ascii_after by exact Hd. now rewrite Ea.
      + cbn [app]. rewrite !encode_two.
        destruct (Utf8.is_high_surrogate c).
        * destruct (Utf8.is_low_surrogate c').
          -- rewrite <- app_assoc. f_equal. apply IH. simpl in Hn. lia.
          -- rewrite <- app_assoc. f_equal.
             apply (IH (c' :: s')). simpl in Hn. simpl. lia.
        * destruct (Utf8.is_low_surrogate c); rewrite <- app_assoc; f_equal;
            apply (IH (c' :: s')); simpl in Hn; simpl; lia. }
  apply (L (List.length s)). lia.
Qed.

(* ================================================================== *)
(** ** [decodeURIComponent]: what it throws, and when it returns *)
(* ================================================================== *)

Lemma rmap_throw {A B} (f : A -> B) (m : Result A) (e : Exn) :
  rmap f m = Throw e -> m = Throw e.
Proof. destruct m; cbn; [discriminate|now intros [= ->]]. Qed.

Lemma rmap_ok {A B} (f : A -> B) (m : Result A) (b : B) :
  rmap f m = Ok b -> exists a, m = Ok a.
Proof. destruct m; cbn; [eauto|discriminate]. Qed.

Lemma tokens_throws_URIError (n : nat) (s : jsstring) (e : Exn) :
  (List.length s <= n)%nat -> Uri.tokens s = Throw e -> e = URIError.
Proof.
  revert s; induction n as [|n IH]; intros s Hn.
  { destruct s; [discriminate|simpl in Hn; lia]. }
  destruct s as [|c r]; [discriminate|]. cbn [Uri.tokens].
  destruct (c =? 37).
  - destruct r as [|h1 [|h2 r']]; try (now intros [= <-]).
    destruct (Uri.hex h1); [|now intros [= <-]].
    destruct (Uri.hex h2); [|now intros [= <-]].
    intros H. apply rmap_throw in H. apply (IH r'); [simpl in Hn; lia|exact H].
  - intros H. apply rmap_throw in H. apply (IH r); [simpl in Hn; lia|exact H].
Qed.

Lemma of_tokens_throws_URIError (n : nat) (ts : list Uri.Token) (e : Exn) :
  (List.length ts <= n)%nat -> Uri.of_tokens ts = Throw e -> e = URIError.
Proof.
  revert ts; induction n as [|n IH]; intros ts Hn.
  { destruct ts; [discriminate|simpl in Hn; lia]. }
  destruct ts as [|[c|b0] r0]; [discriminate| |]; cbn [Uri.of_tokens].
  - intros H. apply rmap_throw in H. apply (IH r0); [simpl in Hn; lia|exact H].
  - destruct (b0 <? 128).
    { intros H. apply rmap_throw in H.
      apply (IH r0); [simpl in Hn; lia|exact H]. }
    destruct (Utf8.in_range 194 223 b0).
    { destruct r0 as [|[c1|b1] r1]; try (now intros [= <-]).
      destruct (Utf8.in_range 128 191 b1); [|now intros [= <-]].
      intros H. apply rmap_throw in H.
      apply (IH r1); [simpl in Hn; lia|exact H]. }
    destruct (Utf8.in_range 224 239 b0).
    { destruct r0 as [|[c1|b1] [|[c2|b2] r2]]; try (now intros [= <-]).
      destruct (_ && _); [|now intros [= <-]].
      intros H. apply rmap_throw in H.
      apply (IH r2); [simpl in Hn; lia|exact H]. }
    destruct (Utf8.in_range 240 244 b0); [|now intros [= <-]].
    destruct r0 as [|[c1|b1] [|[c2|b2] [|[c3|b3] r3]]]; try (now intros [= <-]).
    destruct (_ && _); [|now intros [= <-]].
    intros H. apply rmap_throw in H.
    apply (IH r3); [simpl in Hn; lia|exact H].
Qed.

(** [decodeURIComponent] throws nothing but a [URIError]. *)
Lemma form_decode_throws_URIError (s : jsstring) (e : Exn) :
  form_decode s = Throw e -> e = URIError.
Proof.
  unfold form_decode, Uri.decodeURIComponent.
  destruct (Uri.tokens (plus_to_percent20 s)) as [ts|e'] eqn:E; cbn [rbind].
  - apply (of_tokens_throws_URIError (List.length ts)). lia.
  - intros [= <-]. apply (tokens_throws_URIError _ _ _ (Nat.le_refl _) E).
Qed.

Lemma hex_percent : Uri.hex 37 = None.
Proof. reflexivity. Qed.

Lemma tokens_ok_escapes (n : nat) (s : jsstring) (ts : list Uri.Token) :
  (List.length s <= n)%nat -> Uri.tokens s = Ok ts ->
  forall pre post, s = pre ++ 37 :: post -> two_hex_digits post.
Proof.
  revert s ts; induction n as [|n IH]; intros s ts Hn.
  { destruct s; [|simpl in Hn; lia]. intros _ [|] post H; discriminate H. }
  destruct s as [|c r].
  { intros _ [|] post H; discriminate H. }
  cbn [Uri.tokens]. destruct (N.eqb_spec c 37) as [->|Hc].
  - destruct r as [|h1 [|h2 r']]; try discriminate.
    destruct (Uri.hex h1) eqn:E1; [|discriminate].
    destruct (Uri.hex h2) eqn:E2; [|discriminate].
    intros H. apply rmap_ok in H as [ts' H].
    intros [|p0 pre] post Hs; cbn [app] in Hs.
    + injection Hs as <-. exists h1, h2, r'. rewrite E1, E2.
      repeat split; discriminate.
    + injection Hs as _ Hs. destruct pre as [|p1 pre]; cbn [app] in Hs.
      { injection Hs as -> _. rewrite hex_percent in E1. discriminate. }
      injection Hs as _ Hs. destruct pre as [|p2 pre]; cbn [app] in Hs.
      { injection Hs as -> _. rewrite hex_percent in E2. discriminate. }
      injection Hs as _ Hs.
      apply (IH r' ts' ltac:(simpl in Hn; lia) H pre post Hs).
  - intros H. apply rmap_ok in H as [ts' H].
    intros [|p0 pre] post Hs; cbn [app] in Hs.
    + injection Hs as -> _. contradiction.
    + injection Hs as _ Hs.
      apply (IH r ts' ltac:(simpl in Hn; lia) H pre post Hs).
Qed.

Lemma plus_to_percent20_app (a b : jsstring) :
  plus_to_percent20 (a ++ b) = plus_to_percent20 a ++ plus_to_percent20 b.
Proof. apply flat_map_app. Qed.

Lemma two_hex_digits_before_plus (post : jsstring) :
  two_hex_digits (plus_to_percent20 post) -> two_hex_digits post.
Proof.
  intros (h1 & h2 & rest & E & H1 & H2).
  destruct post as [|a post]; [discriminate|].
  cbn [plus_to_percent20 flat_map] in E.
  destruct (a =? 43).
  { cbn [app] in E. injection E as <- _. now rewrite hex_percent in H1. }
  cbn [app] in E. injection E as <- E.
  destruct post as [|b post]; [discriminate|].
  cbn [flat_map] in E. destruct (b =? 43).
  { cbn [app] in E. injection E as <- _. now rewrite hex_percent in H2. }
  cbn [app] in E. injection E as <- _.
  now exists a, b, post.
Qed.

(** When a piece is decoded, every [%] in it is followed by two
    hexadecimal digits. *)
Lemma form_decode_ok_escapes (s y : jsstring) :
  form_decode s = Ok y ->
  forall pre post, s = pre ++ 37 :: post -> two_hex_digits post.
Proof.
  unfold form_decode, Uri.decodeURIComponent. intros H pre post ->.
  destruct (Uri.tokens (plus_to_percent20 (pre ++ 37 :: post))) as [ts|e] eqn:E;
    [|discriminate].
  apply two_hex_digits_before_plus.
  apply (tokens_ok_escapes _ _ ts (Nat.le_refl _) E (plus_to_percent20 pre)).
  rewrite plus_to_percent20_app. reflexivity.
Qed.

(** A code unit of [s] that is not [c] stands in one of the pieces of
    [s.split(c)], followed there by what follows it in [s] up to the
    next [c]. *)
Lemma split_from_locate (c x : char16) (s cur pre post : jsstring) :
  s = pre ++ x :: post -> x <> c ->
  exists piece A B,
    In piece (split_from [c] 0 cur s)
    /\ piece = A ++ x :: B
    /\ (post = B \/ exists Z, post = B ++ c :: Z).
Proof.
  intros Hs Hx. revert cur pre Hs; induction s as [|y s IH]; intros cur pre Hs.
  { destruct pre; discriminate Hs. }
  destruct pre as [|p0 pre]; cbn [app] in Hs; injection Hs as -> Hs.
  - subst s. rewrite split_from_one. cbn [before_first after_first].
    destruct (N.eqb_spec x c); [contradiction|].
    exists (rev cur ++ x :: before_first c post), (rev cur),
      (before_first c post).
    split; [now left|]. split; [reflexivity|].
    destruct (after_first c post) as [r|] eqn:E.
    + right. exists r. now apply first_cut.
    + left. symmetry. apply before_first_none. intros Hin.
      apply after_first_some in Hin as [r Hr]. congruence.
  - cbn [split_from]. rewrite starts_with_one.
    destruct (p0 =? c); cbn [List.length Nat.sub].
    + destruct (IH [] pre Hs) as (piece & A & B & Hin & Hp & Hpost).
      exists piece, A, B. split; [now right|auto].
    + exact (IH (p0 :: cur) pre Hs).
Qed.

Lemma split_locate (c x : char16) (s pre post : jsstring) :
  s = pre ++ x :: post -> x <> c ->
  exists piece A B,
    In piece (split s [c])
    /\ piece = A ++ x :: B
    /\ (post = B \/ exists Z, post = B ++ c :: Z).
Proof. apply split_from_locate. Qed.

Lemma map_result_ok_each {A B} (f : A -> Result B) (xs : list A)
    (ys : list B) :
  map_result f xs = Ok ys -> forall x, In x xs -> exists y, f x = Ok y.
Proof.
  revert ys; induction xs as [|x xs IH]; intros ys H z Hz; [contradiction|].
  cbn [map_result] in H. destruct (f x) as [y|e] eqn:E; [|discriminate].
  cbn [rbind] in H.
  destruct (map_result f xs) as [ys'|e] eqn:E'; [|discriminate].
  destruct Hz as [<-|Hz]; [eauto|]. now apply (IH ys').
Qed.

Lemma map_result_throw {A B} (f : A -> Result B) (xs : list A) (e : Exn) :
  map_result f xs = Throw e -> exists x, In x xs /\ f x = Throw e.
Proof.
  induction xs as [|x xs IH]; [discriminate|].
  cbn [map_result]. destruct (f x) as [y|e'] eqn:E; cbn [rbind].
  - destruct (map_result f xs) as [ys|e'] eqn:E'; [discriminate|].
    cbn [rbind]. intros [= <-]. destruct (IH eq_refl) as (z & Hz & Hf).
    exists z. split; [now right|exact Hf].
  - intros [= <-]. exists x. split; [now left|exact E].
Qed.

Lemma add_properties_ok (props : list jsstring) (acc : Result Obj.t)
    (ps : Obj.t) :
  fold_left (fun acc prop => rbind acc (fun ps => add_property ps prop))
            props acc = Ok ps ->
  forall prop part,
    In prop props -> In part (split prop (lit "=")) ->
    exists y, form_decode part = Ok y.
Proof.
  revert acc; induction props as [|p props IH]; intros acc H prop part Hprop;
    [contradiction|].
  cbn [fold_left] in H. destruct Hprop as [<-|Hprop].
  - intros Hpart.
    destruct acc as [properties|e].
    + cbn [rbind] in H. unfold add_property in H.
      destruct (map_result _ (split p (lit "="))) as [parts|e] eqn:E.
      * now apply (map_result_ok_each _ _ _ E).
      * cbn [rbind] in H. exfalso. clear -H.
        induction props as [|q props IHp]; [discriminate|]. now apply IHp.
    + cbn [rbind] in H. exfalso. clear -H.
      induction props as [|q props IHp]; [discriminate|]. now apply IHp.
  - now apply (IH _ H).
Qed.

Lemma add_properties_throw (props : list jsstring) (acc : Result Obj.t)
    (e : Exn) :
  fold_left (fun acc prop => rbind acc (fun ps => add_property ps prop))
            props acc = Throw e ->
  acc = Throw e
  \/ exists prop part,
       In prop props /\ In part (split prop (lit "="))
       /\ form_decode part = Throw e.
Proof.
  revert acc; induction props as [|p props IH]; intros acc H; [now left|].
  cbn [fold_left] in H. destruct (IH _ H) as [Hacc|(prop & part & H1 & H2 & H3)].
  - destruct acc as [properties|e']; [|left; exact Hacc].
    right. cbn [rbind] in Hacc. unfold add_property in Hacc.
    destruct (map_result _ (split p (lit "="))) as [parts|e'] eqn:E;
      [discriminate|].
    cbn [rbind] in Hacc. injection Hacc as ->.
    apply map_result_throw in E as (part & Hpart & Hf).
    exists p, part. split; [now left|]. split; [exact Hpart|exact Hf].
  - right. exists prop, part. split; [now right|auto].
Qed.

Lemma two_hex_digits_app (b x : jsstring) :
  two_hex_digits b -> two_hex_digits (b ++ x).
Proof.
  intros (h1 & h2 & rest & -> & H1 & H2). now exists h1, h2, (rest ++ x).
Qed.

Lemma two_hex_digits_upto (post b : jsstring) (c : char16) :
  post = b \/ (exists z, post = b ++ c :: z) ->
  two_hex_digits b -> two_hex_digits post.
Proof.
  intros [-> |[z ->]] H; [exact H|now apply two_hex_digits_app].
Qed.

(* ================================================================== *)
(** ** The head of a serialized response *)
(* ================================================================== *)

Lemma decimal_digits (d : Decimal.uint) :
  Forall (fun c => 48 <= c <= 57) (lit (NilEmpty.string_of_uint d)).
Proof.
  induction d; cbn; constructor; (lia || assumption).
Qed.

Lemma number_to_string_digits (n : nat) :
  Forall (fun c => 48 <= c <= 57) (number_to_string n).
Proof. apply decimal_digits. Qed.

Lemma ascii_only_app (a b : jsstring) :
  ascii_only a -> ascii_only b -> ascii_only (a ++ b).
Proof. intros Ha Hb. apply Forall_app. now split. Qed.

Lemma responseString_head_text (r : Response) :
  responseString r = head_text r.
Proof.
  unfold responseString, head_text, head_lines, header_entries.
  cbn [fold_left fst snd flat_map]. rewrite <- !app_assoc. reflexivity.
Qed.

Lemma ascii_only_head_text (r : Response) :
  Forall ascii_only (head_fields r) -> ascii_only (head_text r).
Proof.
  unfold head_fields. intros H.
  inversion_clear H as [|? ? H0 H']. inversion_clear H' as [|? ? H1 H''].
  inversion_clear H'' as [|? ? H2 H3]. inversion_clear H3 as [|? ? H3' _].
  assert (ascii_only (number_to_string (Content_Length (res_headers r)))) as Hn.
  { eapply Forall_impl; [|apply number_to_string_digits].
    cbn. intros c Hc. lia. }
  unfold head_text, head_lines. cbn [flat_map].
  repeat (apply ascii_only_app; [|try assumption]);
    try assumption; repeat constructor; reflexivity.
Qed.

(** A piece without CR that stands before CR LF is a piece of [split]. *)
Lemma split_from_crlf (p cur rest : jsstring) :
  ~ In 13 p ->
  split_from crlf 0 cur (p ++ crlf ++ rest)
  = (rev cur ++ p) :: split_from crlf 0 [] rest.
Proof.
  revert cur; induction p as [|c p IH]; intros cur Hp.
  - cbn. now rewrite app_nil_r.
  - cbn [app split_from].
    assert (starts_with crlf (c :: p ++ crlf ++ rest) = false) as ->.
    { cbn [crlf starts_with]. destruct (N.eqb_spec 13 c) as [<-|_];
        [|reflexivity]. exfalso. apply Hp. now left. }
    rewrite IH by (intros Hin; apply Hp; now right).
    cbn [rev]. now rewrite <- app_assoc.
Qed.

Lemma split_lines (lines : list jsstring) :
  Forall (fun line => ~ In 13 line) lines ->
  split (flat_map (fun line => line ++ crlf) lines) crlf = lines ++ [[]].
Proof.
  unfold split. induction 1 as [|l lines Hl _ IH]; [reflexivity|].
  cbn [flat_map app]. rewrite <- app_assoc, split_from_crlf by exact Hl.
  cbn [rev app]. now rewrite IH.
Qed.

(* ================================================================== *)
(** ** UTF-8: what [Buffer.from] makes is well-formed *)
(* ================================================================== *)

Module Utf8Out.
Import Utf8 Utf8Facts.

Lemma in_range_true (lo hi b : N) : lo <= b <= hi -> in_range lo hi b = true.
Proof. apply in_range_spec. Qed.

Lemma in_range_out (lo hi b : N) : b < lo \/ hi < b -> in_range lo hi b = false.
Proof. apply in_range_false. Qed.

Lemma well_formed_cp (cp : N) (r : Buffer) :
  scalar cp -> well_formed (encode_cp cp ++ r) = well_formed r.
Proof.
  intros [Hs Hm]. unfold encode_cp.
  destruct (N.ltb_spec cp 0x80) as [H1|H1].
  { cbn [app well_formed]. now destruct (N.ltb_spec cp 0x80); [|lia]. }
  destruct (N.ltb_spec cp 0x800) as [H2|H2].
  { cbn [app well_formed].
    destruct (N.ltb_spec (0xC0 + cp / 64) 0x80); [lia|].
    rewrite (in_range_true 0xC2 0xDF) by lia.
    rewrite (in_range_true 0x80 0xBF) by lia. reflexivity. }
  destruct (N.ltb_spec cp 0x10000) as [H3|H3].
  { cbn [app well_formed].
    set (b0 := 0xE0 + cp / 4096). set (b1 := 0x80 + (cp / 64) mod 64).
    assert (0xE0 <= b0 <= 0xEF) as Hb0 by (subst b0; lia).
    assert (lower2 b0 <= b1 <= upper2 b0) as Hb1.
    { destruct (lower2_cases b0) as [[? E]|[[? E]|(? & ? & E)]];
        destruct (upper2_cases b0) as [[? F]|[[? F]|(? & ? & F)]];
        rewrite E, F; subst b0 b1; lia. }
    destruct (N.ltb_spec b0 0x80); [lia|].
    rewrite (in_range_out 0xC2 0xDF) by lia.
    rewrite (in_range_true 0xE0 0xEF) by lia.
    rewrite (in_range_true _ _ b1) by exact Hb1.
    rewrite (in_range_true 0x80 0xBF) by lia. reflexivity. }
  cbn [app well_formed].
  set (b0 := 0xF0 + cp / 262144). set (b1 := 0x80 + (cp / 4096) mod 64).
  assert (0xF0 <= b0 <= 0xF4) as Hb0 by (subst b0; lia).
  assert (lower2 b0 <= b1 <= upper2 b0) as Hb1.
  { destruct (lower2_cases b0) as [[? E]|[[? E]|(? & ? & E)]];
      destruct (upper2_cases b0) as [[? F]|[[? F]|(? & ? & F)]];
      rewrite E, F; subst b0 b1; lia. }
  destruct (N.ltb_spec b0 0x80); [lia|].
  rewrite (in_range_out 0xC2 0xDF) by lia.
  rewrite (in_range_out 0xE0 0xEF) by lia.
  rewrite (in_range_true 0xF0 0xF4) by lia.
  rewrite (in_range_true _ _ b1) by exact Hb1.
  rewrite !(in_range_true 0x80 0xBF) by lia. reflexivity.
Qed.

Lemma replacement_scalar : scalar replacement.
Proof. unfold scalar, replacement. lia. Qed.

Lemma encode_well_formed_bounded (n : nat) (s : jsstring) :
  (List.length s <= n)%nat -> utf16_units s -> well_formed (encode s) = true.
Proof.
  revert s; induction n as [|n IH]; intros s Hn Hs.
  { destruct s; [reflexivity|simpl in Hn; lia]. }
  destruct s as [|c s']; [reflexivity|].
  assert (c < 0x10000) as Hc by now inversion Hs.
  assert (utf16_units s') as Hs' by now inversion Hs.
  cbn [encode]. unfold is_high_surrogate, is_low_surrogate.
  destruct (in_range 0xD800 0xDBFF c) eqn:Eh.
  - apply in_range_spec in Eh. destruct s' as [|d s''].
    + rewrite <- (app_nil_r (encode_cp replacement)).
      now rewrite well_formed_cp by apply replacement_scalar.
    + destruct (in_range 0xDC00 0xDFFF d) eqn:El.
      * apply in_range_spec in El. rewrite well_formed_cp.
        -- apply IH; [simpl in Hn; simpl; lia|now inversion Hs'].
        -- unfold scalar. lia.
      * rewrite well_formed_cp by apply replacement_scalar.
        apply IH; [simpl in Hn; simpl; lia|exact Hs'].
  - apply in_range_false in Eh.
    destruct (in_range 0xDC00 0xDFFF c) eqn:El.
    + rewrite well_formed_cp by apply replacement_scalar.
      apply IH; [simpl in Hn; simpl; lia|exact Hs'].
    + apply in_range_false in El. rewrite well_formed_cp.
      * apply IH; [simpl in Hn; simpl; lia|exact Hs'].
      * unfold scalar. lia.
Qed.

(** [Buffer.from(s)] is well-formed UTF-8. *)
Lemma encode_well_formed (s : jsstring) :
  utf16_units s -> well_formed (encode s) = true.
Proof. apply (encode_well_formed_bounded (List.length s)). lia. Qed.

Lemma utf16_units_of_cp (cp : N) :
  cp < 0x200000 -> utf16_units (utf16 cp).
Proof.
  intros H. unfold utf16, utf16_units.
  destruct (N.ltb_spec cp 0x10000); repeat constructor; lia.
Qed.

Lemma decode_units_bounded (n : nat) (bs : Buffer) :
  (List.length bs <= n)%nat -> utf16_units (decode bs).
Proof.
  unfold utf16_units.
  revert bs; induction n as [|n IH]; intros bs Hn.
  { destruct bs; [constructor|simpl in Hn; lia]. }
  assert (Hrep : forall r, (List.length r <= n)%nat ->
                           Forall (fun c => c < 0x10000) (replacement :: decode r)).
  { intros r Hr. constructor; [unfold replacement; lia|now apply IH]. }
  assert (Hone : Forall (fun c => c < 0x10000) [replacement]).
  { repeat constructor. }
  assert (Hcp : forall cp r, cp < 0x200000 -> (List.length r <= n)%nat ->
                             Forall (fun c => c < 0x10000) (utf16 cp ++ decode r)).
  { intros cp r Hcp Hr. apply Forall_app. split;
      [now apply utf16_units_of_cp|now apply IH]. }
  destruct bs as [|b0 r0]; [constructor|].
  simpl in Hn. cbn [decode].
  destruct (N.ltb_spec b0 0x80).
  { constructor; [lia|apply IH; lia]. }
  destruct (in_range 0xC2 0xDF b0).
  { destruct r0 as [|b1 r1]; [exact Hone|]. simpl in Hn.
    destruct (in_range 0x80 0xBF b1).
    - apply Hcp; [unfold cp2; lia|lia].
    - apply Hrep. simpl. lia. }
  destruct (in_range 0xE0 0xEF b0).
  { destruct r0 as [|b1 r1]; [exact Hone|]. simpl in Hn.
    destruct (in_range _ _ b1); [|apply Hrep; simpl; lia].
    destruct r1 as [|b2 r2]; [exact Hone|]. simpl in Hn.
    destruct (in_range 0x80 0xBF b2).
    - apply Hcp; [unfold cp3; lia|lia].
    - apply Hrep. simpl. lia. }
  destruct (in_range 0xF0 0xF4 b0); [|apply Hrep; lia].
  destruct r0 as [|b1 r1]; [exact Hone|]. simpl in Hn.
  destruct (in_range _ _ b1); [|apply Hrep; simpl; lia].
  destruct r1 as [|b2 r2]; [exact Hone|]. simpl in Hn.
  destruct (in_range 0x80 0xBF b2); [|apply Hrep; simpl; lia].
  destruct r2 as [|b3 r3]; [exact Hone|]. simpl in Hn.
  destruct (in_range 0x80 0xBF b3).
  - apply Hcp; [unfold cp4; lia|lia].
  - apply Hrep. simpl. lia.
Qed.

(** [buf.toString()] is made of code units of UTF-16, whatever [buf]. *)
Lemma decode_units (bs : Buffer) : utf16_units (decode bs).
Proof. apply (decode_units_bounded (List.length bs)). lia. Qed.

End Utf8Out.

(* ================================================================== *)
(** ** The template step keeps texts within UTF-16 *)
(* ================================================================== *)

Lemma get_units (o : Obj.t) (k : jsstring) :
  string_values o -> utf16_units (to_string (Obj.get o k)).
Proof.
  induction 1 as [|[k' v] o Hv Ho IH]; cbn [Obj.get].
  - repeat constructor.
  - destruct (str_eqb k' k); [exact Hv|exact IH].
Qed.

Lemma get_substitution_units (n : nat) (matched before after repl : jsstring) :
  (List.length repl <= n)%nat ->
  utf16_units matched -> utf16_units before -> utf16_units after ->
  utf16_units repl ->
  utf16_units (get_substitution matched before after repl).
Proof.
  unfold utf16_units. intros Hn Hm Hb Ha. revert repl Hn.
  induction n as [|n IH]; intros repl Hn Hr.
  { destruct repl; [constructor|simpl in Hn; lia]. }
  destruct repl as [|c r]; [constructor|].
  assert (c < 0x10000) as Hc by now inversion Hr.
  assert (Forall (fun c => c < 0x10000) r) as Hr' by now inversion Hr.
  simpl in Hn. cbn [get_substitution].
  destruct (c =? 36).
  - destruct r as [|d r']; [now repeat constructor|].
    assert (Forall (fun c => c < 0x10000) r') as Hr'' by now inversion Hr'.
    simpl in Hn.
    assert (Forall (fun c => c < 0x10000)
                   (get_substitution matched before after r')) as Hrec.
    { apply IH; [lia|exact Hr'']. }
    destruct (d =? 36); [constructor; [lia|exact Hrec]|].
    destruct (d =? 38); [apply Forall_app; now split|].
    destruct (d =? 96); [apply Forall_app; now split|].
    destruct (d =? 39); [apply Forall_app; now split|].
    constructor; [exact Hc|]. apply IH; [simpl; lia|exact Hr'].
  - constructor; [exact Hc|]. apply IH; [lia|exact Hr'].
Qed.

Lemma substitute_units (params : Obj.t) (template key : jsstring) :
  string_values params -> utf16_units template ->
  utf16_units (substitute params template key).
Proof.
  intros Hp Ht. unfold substitute, replace.
  destruct (indexOf template (placeholder key)) as [i|] eqn:E; [|exact Ht].
  apply indexOf_some in E as (_ & Hs & _).
  assert (utf16_units (firstn i template)
          /\ utf16_units (placeholder key)
          /\ utf16_units (skipn (i + List.length (placeholder key)) template))
    as (Hb & Hm & Ha).
  { unfold utf16_units in *. rewrite Hs in Ht.
    apply Forall_app in Ht as [Hb Ht]. apply Forall_app in Ht as [Hm Ha].
    auto. }
  unfold utf16_units. apply Forall_app. split; [exact Hb|].
  apply Forall_app. split; [|exact Ha].
  apply (get_substitution_units _ _ _ _ _ (Nat.le_refl _)); auto.
  now apply get_units.
Qed.

Lemma substitute_all_units (params : Obj.t) (keys : list jsstring)
    (template : jsstring) :
  string_values params -> utf16_units template ->
  utf16_units (fold_left (substitute params) keys template).
Proof.
  intros Hp. revert template; induction keys as [|k keys IH]; intros t Ht;
    [exact Ht|].
  cbn [fold_left]. apply IH. now apply substitute_units.
Qed.

(* ================================================================== *)
(** ** Examples *)
(* ================================================================== *)

Local Open Scope string_scope.
Local Open Scope list_scope.
Local Open Scope N_scope.

Example split_ex1 :
  split (lit "a:b::c") (lit ":") = [lit "a"; lit "b"; []; lit "c"].
Proof. reflexivity. Qed.

Example split_ex2 : split [] (lit ":") = [[]].
Proof. reflexivity. Qed.

Example split_ex3 :
  split (lit "GET / HTTP/1.1" ++ [13; 10] ++ lit "A: b" ++ [13; 10; 13; 10])
        [13; 10]
  = [lit "GET / HTTP/1.1"; lit "A: b"; []; []].
Proof. reflexivity. Qed.

Example indexOf_ex : indexOf (lit "ab%%k%%cd%%k%%") (lit "%%k%%") = Some 2%nat.
Proof. reflexivity. Qed.

Example trim_ex : trim (lit "  text/html ") = lit "text/html".
Proof. reflexivity. Qed.
Example utf8_ex1 : Utf8.decode [0xFF] = [0xFFFD].
Proof. reflexivity. Qed.
Example utf8_ex2 : Utf8.encode (Utf8.decode [0xFF]) = [0xEF; 0xBF; 0xBD].
Proof. reflexivity. Qed.
Example utf8_ex3 : Utf8.decode [0xF0; 0x9F; 0x98; 0x80] = [0xD83D; 0xDE00].
Proof. reflexivity. Qed.
Example utf8_ex4 : Utf8.encode [0xD83D; 0xDE00] = [0xF0; 0x9F; 0x98; 0x80].
Proof. reflexivity. Qed.
Example utf8_ex5 : Utf8.encode (Utf8.decode [0xC2; 0xA1; 0xE2; 0x82; 0xAC]) = [0xC2; 0xA1; 0xE2; 0x82; 0xAC].
Proof. reflexivity. Qed.
Example utf8_ex6 : Utf8.decode [0xE2; 0x82; 0x41] = [0xFFFD; 0x41].
Proof. reflexivity. Qed.

Example replace_ex1 :
  replace (lit "a %%k%% b %%k%%") (lit "%%k%%") (lit "X") = lit "a X b %%k%%".
Proof. reflexivity. Qed.
Example replace_ex2 :
  replace (lit "[%%k%%]") (lit "%%k%%") (lit "$$-$&-$`-$'-$1") = lit "[$-%%k%%-[-]-$1]".
Proof. reflexivity. Qed.
Example uri_ex1 :
  Uri.decodeURIComponent (plus_to_percent20 (lit "Hola+Mundo%21")) = Ok (lit "Hola Mundo!").
Proof. reflexivity. Qed.
Example uri_ex2 : Uri.decodeURIComponent (lit "%E2%82%AC") = Ok [0x20AC].
Proof. reflexivity. Qed.
Example uri_ex3 : Uri.decodeURIComponent (lit "100%") = Throw URIError.
Proof. reflexivity. Qed.
Example uri_ex4 : Uri.decodeURIComponent (lit "%E9") = Throw URIError.
Proof. reflexivity. Qed.
Example keys_ex :
  Obj.keys (Obj.set (Obj.set (Obj.set (Obj.set (Obj.set Obj.empty (lit "b") VUndefined)
     (lit "10") VUndefined) (lit "9") VUndefined) (lit "__proto__") VUndefined) (lit "01") VUndefined)
  = [lit "9"; lit "10"; lit "b"; lit "01"].
Proof. reflexivity. Qed.

Example parse_ex1 :
  Demo.parseRequest
    (Demo.text ["POST /proceso.html?x=1 HTTP/1.1"; "Host: localhost:9090"; "Accept: */*"]
               "mensaje=Hola+Mundo")
  = Ok (mkRequest
          [(lit "Host", VString (lit "localhost:9090")); (lit "Accept", VString (lit "*/*"))]
          (lit "POST") (lit "/proceso.html") (lit "?x=1") (Some (lit "mensaje=Hola+Mundo"))).
Proof. reflexivity. Qed.

Example scenario_D :
  outcome (Demo.createResponse
             (Demo.request "POST" "/proceso.html" [("Accept", "*/*")] (Some "mensaje=Hola+Mundo")))
  = Ok (mkResponse (lit "200 OK")
          (mkHeaders Demo.now (lit "MiServidor/1.0") 52 (MType (lit "text/html")))
          (Some (lit "<html><body> Hola Mundo y %%mensaje%% </body></html>"))).
Proof. reflexivity. Qed.

Example scenario_C :
  outcome (Demo.createResponse
             (Demo.request "GET" "/index.html" [("Accept", "image/gif")] None))
  = Ok (mkResponse (lit "406 NOT ACCEPTABLE")
          (mkHeaders Demo.now (lit "MiServidor/1.0") 12 (MType (lit "text/html")))
          (Some Demo.page406)).
Proof. reflexivity. Qed.

Example scenario_B :
  Demo.createResponse (Demo.request "GET" "/missing.html" [("Accept", "text/html")] None)
  = ([ExistsSync (lit "/srv/www/missing.html"); ReadFileSync (lit "/srv/www/404.html")],
     Ok (mkResponse (lit "404 NOT FOUND")
          (mkHeaders Demo.now (lit "MiServidor/1.0") 12 (MType (lit "text/html")))
          (Some Demo.page404))).
Proof. reflexivity. Qed.

Example form_ex1 :
  parseFormUrlEncoded (lit "a=1&b=x%20y&c&a=2")
  = Ok [(lit "a", VString (lit "2")); (lit "b", VString (lit "x y")); (lit "c", VUndefined)].
Proof. reflexivity. Qed.

(* ================================================================== *)
(** ** The response builders and the dispatch on the method *)
(* ================================================================== *)

Section Responses.

Context {QueryParams : Type}.
Variable wwwPath : jsstring.
Variable fs : jsstring -> FsNode.
Variable now : jsstring.
Variable mime_lookup : jsstring -> Mime.

(** C3. Every response built by [create200Response],
    [create404Response], [create406Response] or [create501Response]
    has a [Content-Length] header equal to the number of bytes of its
    body, and equal to [0] when the body is absent. *)
Theorem content_length_is_body_length :
  (forall body contentType,
      content_length_ok (create200Response now body contentType))
  /\ (forall r, outcome (create404Response wwwPath fs now) = Ok r ->
                content_length_ok r)
  /\ (forall r, outcome (create406Response wwwPath fs now) = Ok r ->
                content_length_ok r)
  /\ (forall r, outcome (create501Response wwwPath fs now) = Ok r ->
                content_length_ok r).
Proof.
  split; [intros [b|] ct; reflexivity|].
  unfold create404Response, create406Response, create501Response,
    readFileSync, bind, ret, outcome.
  repeat split; intros r;
    match goal with |- context [fs ?p] => destruct (fs p) end;
    cbn; intros H; try discriminate; injection H as <-; reflexivity.
Qed.

(** C8, as the code has it.  A HEAD request for a resource that exists
    is answered in one of two ways.  When the request has an [Accept]
    header and the mime type of the resource is accepted by it, the
    answer is a 200 response without body, with [Content-Length] 0 and
    with the mime type of the resource as [Content-Type].  When the
    request has no [Accept] header, nothing is taken as accepted: a
    [TypeError] is thrown and there is no response.  In both cases the
    only call made to the file system is the existence check, so the
    file is not read. *)
Theorem head_response (req : Request QueryParams) :
  method req = lit "HEAD" ->
  fs (wwwPath ++ lit "/" ++ getReqResourceName req) <> NoEntry ->
  (forall s accepted,
      Obj.get (headers req) (lit "Accept") = VString s ->
      parseMimeTypeList (VString s) = Ok accepted ->
      mimeTypeIsAccepted (mime_lookup (getReqResourceName req)) accepted
      = true ->
      createResponse wwwPath fs now mime_lookup req
      = ([ExistsSync (wwwPath ++ lit "/" ++ getReqResourceName req)],
         Ok (mkResponse (lit "200 OK")
               (mkHeaders now (lit "MiServidor/1.0") 0
                          (mime_lookup (getReqResourceName req)))
               None)))
  /\ (Obj.has (headers req) (lit "Accept") = false ->
      createResponse wwwPath fs now mime_lookup req
      = ([ExistsSync (wwwPath ++ lit "/" ++ getReqResourceName req)],
         Throw TypeError)).
Proof.
  intros Hm Hex.
  unfold createResponse. rewrite Hm.
  change (str_eqb (lit "HEAD") (lit "GET")) with false.
  change (str_eqb (lit "HEAD") (lit "HEAD")) with true. cbv iota.
  unfold processHead, existsSync, bind, lift, ret. split.
  - intros s accepted Hacc Hparse Hok.
    rewrite Hacc, Hparse, Hok.
    destruct (fs (wwwPath ++ lit "/" ++ getReqResourceName req));
      [contradiction| |]; reflexivity.
  - intros Hno. rewrite (get_absent _ _ Hno). reflexivity.
Qed.

(** C9. A request whose method is none of GET, HEAD and POST is
    answered by the 501 response, whose body is the content of
    [501.html] under the served root; the resource named by the request
    is not looked at. *)
Theorem other_method_response (req : Request QueryParams) (page : Buffer) :
  method req <> lit "GET" ->
  method req <> lit "HEAD" ->
  method req <> lit "POST" ->
  fs (wwwPath ++ lit "/501.html") = File page ->
  createResponse wwwPath fs now mime_lookup req
  = ([ReadFileSync (wwwPath ++ lit "/501.html")],
     Ok (mkResponse (lit "501 NOT IMPLEMENTED")
           (mkHeaders now (lit "MiServidor/1.0") (List.length page)
                      (MType (lit "text/html")))
           (Some page))).
Proof.
  intros Hg Hh Hp Hpage.
  unfold createResponse.
  rewrite !str_eqb_neq by assumption.
  unfold create501Response, readFileSync, bind, ret.
  rewrite Hpage. reflexivity.
Qed.

End Responses.

Lemma content_length_is_body_length_witness :
  (exists r, outcome (create404Response Demo.wwwPath Demo.fs Demo.now) = Ok r
             /\ res_body r = Some Demo.page404 /\ content_length_ok r)
  /\ (exists r, outcome (create406Response Demo.wwwPath Demo.fs Demo.now) = Ok r
                /\ res_body r = Some Demo.page406 /\ content_length_ok r)
  /\ (exists r, outcome (create501Response Demo.wwwPath Demo.fs Demo.now) = Ok r
                /\ res_body r = Some Demo.page501 /\ content_length_ok r).
Proof.
  destruct (content_length_is_body_length Demo.wwwPath Demo.fs Demo.now)
    as (_ & H404 & H406 & H501).
  repeat split; eexists; (split; [reflexivity|split; [reflexivity|]]).
  - apply H404. reflexivity.
  - apply H406. reflexivity.
  - apply H501. reflexivity.
Defined.

Lemma head_response_witness :
  Demo.createResponse
    (Demo.request "HEAD" "/index.html" [("Accept", "text/html, image/gif")] None)
  = ([ExistsSync (lit "/srv/www/index.html")],
     Ok (mkResponse (lit "200 OK")
           (mkHeaders Demo.now (lit "MiServidor/1.0") 0 (MType (lit "text/html")))
           None))
  /\ Demo.createResponse
       (Demo.request "HEAD" "/index.html" [("Host", "localhost:9090")] None)
     = ([ExistsSync (lit "/srv/www/index.html")], Throw TypeError).
Proof.
  split.
  - destruct (head_response Demo.wwwPath Demo.fs Demo.now Demo.mime_lookup
                (Demo.request "HEAD" "/index.html"
                              [("Accept", "text/html, image/gif")] None))
      as [H _].
    + reflexivity.
    + discriminate.
    + apply (H (lit "text/html, image/gif") [lit "text/html"; lit "image/gif"]);
        reflexivity.
  - destruct (head_response Demo.wwwPath Demo.fs Demo.now Demo.mime_lookup
                (Demo.request "HEAD" "/index.html"
                              [("Host", "localhost:9090")] None))
      as [_ H].
    + reflexivity.
    + discriminate.
    + apply H. reflexivity.
Defined.

(** C8 fails as stated.  The request line and header
    [HEAD /index.html HTTP/1.1], [Host: localhost:9090] make a HEAD
    request without [Accept] header for a file that exists.  The accepted
    set that goes with an absent header, the wildcard alone, accepts the
    mime type of the file; and yet the resolver returns no 200 response:
    it throws after the existence check. *)
Lemma head_without_accept_header_is_not_answered :
  let text := Demo.text ["HEAD /index.html HTTP/1.1"; "Host: localhost:9090"] EmptyString in
  rmap (fun req => (method req, resource req, Obj.has (headers req) (lit "Accept")))
       (Demo.parseRequest text)
  = Ok (lit "HEAD", lit "/index.html", false)
  /\ Demo.fs (lit "/srv/www/index.html") = File Demo.index_html
  /\ mimeTypeIsAccepted (Demo.mime_lookup (lit "index.html")) [lit "*/*"] = true
  /\ rmap Demo.createResponse (Demo.parseRequest text)
     = Ok ([ExistsSync (lit "/srv/www/index.html")], Throw TypeError).
Proof. repeat split. Qed.

Lemma other_method_response_witness :
  Demo.createResponse
    (Demo.request "PUT" "/no-such-file" [("Accept", "*/*")] (Some "mensaje=Hola+Mundo"))
  = ([ReadFileSync (lit "/srv/www/501.html")],
     Ok (mkResponse (lit "501 NOT IMPLEMENTED")
           (mkHeaders Demo.now (lit "MiServidor/1.0") 12 (MType (lit "text/html")))
           (Some Demo.page501))).
Proof.
  apply (other_method_response Demo.wwwPath Demo.fs Demo.now Demo.mime_lookup
           (Demo.request "PUT" "/no-such-file" [("Accept", "*/*")]
                         (Some "mensaje=Hola+Mundo"))
           Demo.page501).
  - discriminate.
  - discriminate.
  - discriminate.
  - reflexivity.
Defined.

(* ================================================================== *)
(** ** Content negotiation *)
(* ================================================================== *)

Lemma existsb_str_eqb (x : jsstring) (l : list jsstring) :
  In x l -> existsb (str_eqb x) l = true.
Proof.
  intros H. apply existsb_exists. exists x. split; [exact H|apply str_eqb_refl].
Qed.

Lemma wildcard_is_accepted (m : Mime) (accepted : list jsstring) :
  In (lit "*/*") accepted -> mimeTypeIsAccepted m accepted = true.
Proof.
  intros H. unfold mimeTypeIsAccepted.
  rewrite (existsb_str_eqb _ _ H). cbn [negb]. now rewrite andb_false_r.
Qed.

Section Negotiation.

Context {QueryParams : Type}.
Variable wwwPath : jsstring.
Variable fs : jsstring -> FsNode.
Variable now : jsstring.
Variable mime_lookup : jsstring -> Mime.

(** [processPost] is [processGet] word for word. *)
Lemma processPost_is_processGet (req : Request QueryParams) :
  processPost wwwPath fs now mime_lookup req
  = processGet wwwPath fs now mime_lookup req.
Proof. reflexivity. Qed.

Lemma processGet_200 (req : Request QueryParams) (s : jsstring)
    (accepted : list jsstring) (r : Response) :
  Obj.get (headers req) (lit "Accept") = VString s ->
  parseMimeTypeList (VString s) = Ok accepted ->
  In (lit "*/*") accepted ->
  fs (wwwPath ++ lit "/" ++ getReqResourceName req) <> NoEntry ->
  outcome (processGet wwwPath fs now mime_lookup req) = Ok r ->
  statusCode r = lit "200 OK".
Proof.
  intros Hacc Hparse Hin Hex.
  unfold processGet, existsSync, readFileSync, bind, lift, ret, outcome.
  rewrite Hacc, Hparse, (wildcard_is_accepted _ _ Hin).
  destruct (fs (wwwPath ++ lit "/" ++ getReqResourceName req)) as [| |data];
    [contradiction|cbn; discriminate|].
  cbn [negb snd fst].
  destruct (truthy (body req)) as [b|].
  - destruct (mimeTypeIsHtml (mime_lookup (getReqResourceName req)))
      as [[|]|e]; cbn.
    + destruct (parseFormUrlEncoded b); cbn; [|discriminate].
      now intros [= <-].
    + now intros [= <-].
    + discriminate.
  - cbn. now intros [= <-].
Qed.

(** C1, as the code has it.  The accepted set has no default: for a
    request without [Accept] header, [processGet], [processHead] and
    [processPost] hand [undefined] to [parseMimeTypeList] and throw a
    [TypeError] right after the existence check, so that no response is
    produced, neither 406 nor any other.  The wildcard keeps a resource
    that exists from a 406 answer only when the [Accept] header of the
    request lists it: every response is then a 200 response. *)
Theorem accept_header_is_required (req : Request QueryParams) :
  let path := wwwPath ++ lit "/" ++ getReqResourceName req in
  (Obj.has (headers req) (lit "Accept") = false ->
   processGet wwwPath fs now mime_lookup req
   = ([ExistsSync path], Throw TypeError)
   /\ processHead wwwPath fs now mime_lookup req
      = ([ExistsSync path], Throw TypeError)
   /\ processPost wwwPath fs now mime_lookup req
      = ([ExistsSync path], Throw TypeError))
  /\ (forall s accepted r,
         Obj.get (headers req) (lit "Accept") = VString s ->
         parseMimeTypeList (VString s) = Ok accepted ->
         In (lit "*/*") accepted ->
         fs path <> NoEntry ->
         outcome (processGet wwwPath fs now mime_lookup req) = Ok r
         \/ outcome (processHead wwwPath fs now mime_lookup req) = Ok r
         \/ outcome (processPost wwwPath fs now mime_lookup req) = Ok r ->
         statusCode r = lit "200 OK").
Proof.
  intros path. split.
  - intros Hacc. apply get_absent in Hacc.
    unfold processPost, processGet, processHead, existsSync, bind, lift.
    rewrite Hacc. cbn. auto.
  - intros s accepted r Hacc Hparse Hin Hex [H|[H|H]].
    + now apply (processGet_200 req s accepted).
    + revert H.
      unfold processHead, existsSync, bind, lift, ret, outcome.
      rewrite Hacc, Hparse, (wildcard_is_accepted _ _ Hin).
      fold path. destruct (fs path); [contradiction| |]; cbn;
        now intros [= <-].
    + rewrite processPost_is_processGet in H.
      now apply (processGet_200 req s accepted).
Qed.

End Negotiation.

Lemma accept_header_is_required_witness :
  Demo.processGet (Demo.request "GET" "/index.html" [("Host", "localhost:9090")] None)
  = ([ExistsSync (lit "/srv/www/index.html")], Throw TypeError)
  /\ statusCode
       (mkResponse (lit "200 OK")
          (mkHeaders Demo.now (lit "MiServidor/1.0") 39 (MType (lit "text/html")))
          (Some Demo.index_html))
     = lit "200 OK".
Proof.
  split.
  - apply (accept_header_is_required Demo.wwwPath Demo.fs Demo.now
             Demo.mime_lookup
             (Demo.request "GET" "/index.html" [("Host", "localhost:9090")] None)).
    reflexivity.
  - apply (proj2 (accept_header_is_required Demo.wwwPath Demo.fs Demo.now
                    Demo.mime_lookup
                    (Demo.request "GET" "/index.html"
                                  [("Accept", "image/gif, */*;q=0.8")] None))
             (lit "image/gif, */*;q=0.8") [lit "image/gif"; lit "*/*"]).
    + reflexivity.
    + reflexivity.
    + right. left. reflexivity.
    + discriminate.
    + left. reflexivity.
Defined.

(** C1 fails as stated.  The request line and headers
    [GET /index.html HTTP/1.1], [Host: localhost:9090] have no [Accept]
    entry and name a file that exists; the resolver does not take the
    accepted set to hold the wildcard, which would give the 200 response
    of the same request with [Accept: */*], but throws. *)
Lemma absent_accept_header_is_not_wildcard :
  let text := Demo.text ["GET /index.html HTTP/1.1"; "Host: localhost:9090"] EmptyString in
  let text' := Demo.text ["GET /index.html HTTP/1.1"; "Host: localhost:9090"; "Accept: */*"] EmptyString in
  rmap (fun req => Obj.has (headers req) (lit "Accept")) (Demo.parseRequest text)
  = Ok false
  /\ rbind (Demo.parseRequest text) (fun req => outcome (Demo.createResponse req))
     = Throw TypeError
  /\ rbind (Demo.parseRequest text') (fun req => outcome (Demo.createResponse req))
     = Ok (mkResponse (lit "200 OK")
             (mkHeaders Demo.now (lit "MiServidor/1.0") 39 (MType (lit "text/html")))
             (Some Demo.index_html)).
Proof. repeat split. Qed.

(* ================================================================== *)
(** ** The mime type of a resource *)
(* ================================================================== *)

(** C5, as the code has it.  For a resource name whose extension is not
    in the extension table, [mime.lookup], which the resolver calls and
    whose result it uses as it is, returns [false]: no mime type at all,
    and so not [application/octet-stream]. *)
Theorem lookup_unknown_extension (extname toLowerCase : jsstring -> jsstring)
    (types : jsstring -> option jsstring) (path : jsstring) :
  types (extension extname toLowerCase path) = None ->
  lookup extname toLowerCase types path = MFalse
  /\ lookup extname toLowerCase types path
     <> MType (lit "application/octet-stream").
Proof.
  intros H. assert (lookup extname toLowerCase types path = MFalse) as E.
  { unfold lookup. destruct path as [|c path]; [reflexivity|].
    revert H. destruct (extension extname toLowerCase (c :: path));
      [reflexivity|]. now intros ->. }
  rewrite E. split; [reflexivity|discriminate].
Qed.

Lemma lookup_unknown_extension_witness :
  Demo.mime_lookup (lit "datos.noexiste") = MFalse
  /\ Demo.mime_lookup (lit "datos.noexiste") <> MType (lit "application/octet-stream").
Proof.
  apply (lookup_unknown_extension Demo.extname Demo.toLowerCase Demo.types
           (lit "datos.noexiste")).
  reflexivity.
Defined.

(** C5 fails as stated.  The extension [noexiste] is not in the table; the
    mime type that the resolver gets for [datos.noexiste] is [false], and that
    is what the 200 response carries as [Content-Type]. *)
Lemma unknown_extension_is_not_octet_stream :
  Demo.types (extension Demo.extname Demo.toLowerCase (lit "datos.noexiste")) = None
  /\ Demo.mime_lookup (lit "datos.noexiste") = MFalse
  /\ outcome (Demo.createResponse
                (Demo.request "GET" "/datos.noexiste" [("Accept", "*/*")] None))
     = Ok (mkResponse (lit "200 OK")
             (mkHeaders Demo.now (lit "MiServidor/1.0") 3 MFalse)
             (Some [0; 1; 2])).
Proof. repeat split. Qed.

(* ================================================================== *)
(** ** The template step *)
(* ================================================================== *)

Lemma substitute_absent (params : Obj.t) (template key : jsstring) :
  indexOf template (placeholder key) = None ->
  substitute params template key = template.
Proof. intros H. unfold substitute. now rewrite H. Qed.

Lemma substitute_all_absent (params : Obj.t) (keys : list jsstring)
    (template : jsstring) :
  (forall key, In key keys -> ~ occurs_in (placeholder key) template) ->
  fold_left (substitute params) keys template = template.
Proof.
  induction keys as [|k keys IH]; intros H; [reflexivity|].
  cbn [fold_left]. rewrite substitute_absent.
  - apply IH. intros key Hin. apply H. now right.
  - apply indexOf_none_iff, H. now left.
Qed.

(** C7, as the code has it.  For a document that is well-formed UTF-8
    and a parameter mapping none of whose keys has its placeholder in the
    text of the document, [runCGI] returns the document byte for byte. *)
Theorem runCGI_without_placeholder (data : Buffer) (params : Obj.t) :
  Utf8.well_formed data = true ->
  (forall key, In key (Obj.keys params) ->
               ~ occurs_in (placeholder key) (Utf8.decode data)) ->
  runCGI data params = data.
Proof.
  intros Hwf Hnone. unfold runCGI.
  rewrite substitute_all_absent by exact Hnone.
  now apply Utf8Facts.roundtrip.
Qed.

Lemma runCGI_without_placeholder_witness :
  runCGI Demo.proceso_html [(lit "nombre", VString (lit "Ana")); (lit "edad", VUndefined)]
  = Demo.proceso_html.
Proof.
  apply runCGI_without_placeholder.
  - reflexivity.
  - intros key [<-|[<-|[]]]; apply indexOf_none_iff; reflexivity.
Defined.

(** C7 fails as stated.  The six bytes below are the word Hola between
    an inverted and a plain exclamation mark, in ISO 8859-1; no key of
    the mapping has a placeholder in the document, and yet [runCGI]
    returns eight bytes: the byte [0xA1], which is not UTF-8, has become
    U+FFFD. *)
Lemma runCGI_changes_ill_formed_document :
  let data := [0xA1; 0x48; 0x6F; 0x6C; 0x61; 0x21] in
  let params := [(lit "mensaje", VString (lit "Hola Mundo"))] in
  (forall key, In key (Obj.keys params) ->
               ~ occurs_in (placeholder key) (Utf8.decode data))
  /\ runCGI data params = [0xEF; 0xBF; 0xBD; 0x48; 0x6F; 0x6C; 0x61; 0x21]
  /\ runCGI data params <> data.
Proof.
  cbv zeta. split; [|split].
  - intros key [<-|[]]. apply indexOf_none_iff. reflexivity.
  - reflexivity.
  - discriminate.
Qed.






(* ================================================================== *)
(** ** The form body *)
(* ================================================================== *)

(** C6, as the code has it.  [parseFormUrlEncoded] splits the body on
    [&] and each pair on every [=].  The key is the text before the first
    [=]; the value is the text between the first [=] and the second, or
    the end of the pair, and is [undefined] for a pair without [=]; what
    follows a second [=] is decoded and dropped.  Every piece is
    percent-decoded after its [+] have been replaced by spaces. *)
Theorem form_pair_segments (properties : Obj.t) (prop body : jsstring) :
  add_property properties prop
  = rbind (form_decode (before_first (ch "=") prop)) (fun key =>
      match after_first (ch "=") prop with
      | None => Ok (Obj.set properties key VUndefined)
      | Some rest =>
          rbind (form_decode (before_first (ch "=") rest)) (fun value =>
          rbind match after_first (ch "=") rest with
                | Some extra => map_result form_decode (split extra (lit "="))
                | None => Ok []
                end
                (fun _ => Ok (Obj.set properties key (VString value))))
      end)
  /\ parseFormUrlEncoded body
     = fold_left (fun acc prop => rbind acc (fun ps => add_property ps prop))
                 (split body (lit "&")) (Ok Obj.empty).
Proof.
  split; [|reflexivity].
  unfold add_property.
  change (fun part => Uri.decodeURIComponent (plus_to_percent20 part))
    with form_decode.
  change (lit "=") with [ch "="].
  rewrite split_one. cbn [map_result].
  destruct (form_decode (before_first (ch "=") prop)) as [key|e];
    [|reflexivity].
  cbn [rbind].
  destruct (after_first (ch "=") prop) as [rest|]; [|reflexivity].
  rewrite split_one. cbn [map_result].
  destruct (form_decode (before_first (ch "=") rest)) as [value|e];
    [|reflexivity].
  cbn [rbind].
  destruct (after_first (ch "=") rest) as [extra|]; [|reflexivity].
  destruct (map_result form_decode (split extra [ch "="])); reflexivity.
Qed.

(** C6 fails as stated.  In the pair [a=b=c] the value is not the whole
    of [b=c]: the property [a] gets [b]. *)
Lemma form_value_is_cut_at_second_equals :
  parseFormUrlEncoded (lit "a=b=c&d=1") 
  = Ok [(lit "a", VString (lit "b")); (lit "d", VString (lit "1"))]
  /\ rmap (fun ps => Obj.get ps (lit "a")) (parseFormUrlEncoded (lit "a=b=c&d=1"))
     <> Ok (VString (lit "b=c")).
Proof. split; [reflexivity|discriminate]. Qed.

(* ================================================================== *)
(** ** The headers of a request *)
(* ================================================================== *)

Lemma add_header_without_colon (hs : Obj.t) (line : jsstring) :
  ~ In (ch ":") line -> add_header hs line = hs.
Proof.
  intros H. unfold add_header, header_of_line.
  now destruct (before_first_none _ _ H) as [_ ->].
Qed.

Lemma add_header_with_colon (hs : Obj.t) (name raw : jsstring) :
  ~ In (ch ":") name ->
  add_header hs (name ++ ch ":" :: raw)
  = Obj.set hs name (VString (trim_one_space raw)).
Proof.
  intros H. unfold add_header, header_of_line.
  now destruct (before_first_app (ch ":") name raw H) as [-> ->].
Qed.

Section Headers.

Context {QueryParams : Type}.
Variable queryString_parse : jsstring -> Result QueryParams.
Variable no_params : QueryParams.

(** C4. The headers of the request that [parseRequest] returns are
    those set, in order, by the lines that come before the first empty
    line.  A line without [:] sets nothing.  A line with a [:] is cut
    at its first [:]: the text before it is the name, and the value is
    all of the text after it, further [:] included, less one leading
    space. *)
Theorem parseRequest_headers (text : jsstring) (req : Request QueryParams) :
  parseRequest queryString_parse no_params text = Ok req ->
  headers req
  = fold_left add_header (header_lines (split text crlf)) Obj.empty
  /\ (forall hs line, ~ In (ch ":") line -> add_header hs line = hs)
  /\ (forall hs name raw,
         ~ In (ch ":") name ->
         add_header hs (name ++ ch ":" :: raw)
         = Obj.set hs name (VString (trim_one_space raw))).
Proof.
  intros H. split; [now apply (headers_of_parseRequest _ _ _ _ H)|].
  split; [apply add_header_without_colon|apply add_header_with_colon].
Qed.

(** C10, as the code has it.  The request line goes through the header
    loop like the lines that follow it.  When it has a [:] and the text
    before its first [:] is not [__proto__], the headers of the request
    have an entry under that text; when it has no [:], the headers are
    those set by the lines that follow it. *)
Theorem request_line_is_scanned (text : jsstring)
    (req : Request QueryParams) :
  parseRequest queryString_parse no_params text = Ok req ->
  let first := nth 0 (split text crlf) [] in
  (In (ch ":") first ->
   before_first (ch ":") first <> Obj.proto_key ->
   Obj.has (headers req) (before_first (ch ":") first) = true)
  /\ (~ In (ch ":") first ->
      headers req
      = fold_left add_header (header_lines (tl (split text crlf)))
                  Obj.empty).
Proof.
  intros H.
  pose proof (headers_of_parseRequest _ _ _ _ H) as Hh.
  destruct (first_line_of_parseRequest _ _ _ _ H) as (l0 & rest & Es & Hl0).
  rewrite Es in *. cbn [nth tl].
  assert (header_lines (l0 :: rest) = l0 :: header_lines rest) as E.
  { destruct l0; [contradiction|reflexivity]. }
  rewrite E in Hh. cbn [fold_left] in Hh. rewrite Hh. split.
  - intros Hin Hproto. apply has_add_headers.
    destruct (after_first_some _ _ Hin) as [raw Hraw].
    unfold add_header, header_of_line. rewrite Hraw.
    now apply has_set.
  - intros Hno. now rewrite add_header_without_colon.
Qed.

End Headers.

Lemma parseRequest_headers_witness :
  Demo.parseRequest
    (Demo.text ["GET / HTTP/1.1"; "Host: localhost:9090"; "X-Empty:";
                "no colon here"; "Referer:  http://a/b:c"; EmptyString; "Late: x"] EmptyString)
  = Ok (mkRequest
          [(lit "Host", VString (lit "localhost:9090"));
           (lit "X-Empty", VString []);
           (lit "Referer", VString (lit " http://a/b:c"))]
          (lit "GET") (lit "/") Demo.no_params (Some []))
  /\ [(lit "Host", VString (lit "localhost:9090"));
      (lit "X-Empty", VString []);
      (lit "Referer", VString (lit " http://a/b:c"))]
     = fold_left add_header
         [lit "GET / HTTP/1.1"; lit "Host: localhost:9090"; lit "X-Empty:";
          lit "no colon here"; lit "Referer:  http://a/b:c"]
         Obj.empty.
Proof.
  split; [reflexivity|].
  apply (proj1 (parseRequest_headers Demo.queryString_parse Demo.no_params
                  (Demo.text ["GET / HTTP/1.1"; "Host: localhost:9090";
                              "X-Empty:"; "no colon here";
                              "Referer:  http://a/b:c"; EmptyString; "Late: x"] EmptyString)
                  (mkRequest
                     [(lit "Host", VString (lit "localhost:9090"));
                      (lit "X-Empty", VString []);
                      (lit "Referer", VString (lit " http://a/b:c"))]
                     (lit "GET") (lit "/") Demo.no_params (Some []))
                  eq_refl)).
Defined.

Lemma request_line_is_scanned_witness :
  Demo.parseRequest
    (Demo.text ["GET http://localhost:9090/index.html HTTP/1.1"; "Accept: */*"] EmptyString)
  = Ok (mkRequest
          [(lit "GET http", VString (lit "//localhost:9090/index.html HTTP/1.1"));
           (lit "Accept", VString (lit "*/*"))]
          (lit "GET") (lit "http://localhost:9090/index.html") Demo.no_params
          (Some []))
  /\ Obj.has
       [(lit "GET http", VString (lit "//localhost:9090/index.html HTTP/1.1"));
        (lit "Accept", VString (lit "*/*"))]
       (lit "GET http") = true.
Proof.
  split; [reflexivity|].
  apply (proj1 (request_line_is_scanned Demo.queryString_parse Demo.no_params
                  (Demo.text ["GET http://localhost:9090/index.html HTTP/1.1";
                              "Accept: */*"] EmptyString)
                  (mkRequest
                     [(lit "GET http",
                       VString (lit "//localhost:9090/index.html HTTP/1.1"));
                      (lit "Accept", VString (lit "*/*"))]
                     (lit "GET") (lit "http://localhost:9090/index.html")
                     Demo.no_params (Some []))
                  eq_refl)).
  - cbn. tauto.
  - discriminate.
Defined.

(** C10 fails as stated.  The first line below has a [:], and the text
    before it is [__proto__]; the request parses, and its headers have no
    entry under that text, nor any entry at all. *)
Lemma request_line_proto_sets_no_header :
  let text := Demo.text ["__proto__: /index.html"] EmptyString in
  let first := nth 0 (split text crlf) [] in
  first = lit "__proto__: /index.html"
  /\ Demo.parseRequest text
     = Ok (mkRequest Obj.empty (lit "__proto__:") (lit "/index.html")
                     Demo.no_params (Some []))
  /\ Obj.has Obj.empty (before_first (ch ":") first) = false.
Proof. repeat split. Qed.

(* ================================================================== *)
(** ** More on [parseRequest] *)
(* ================================================================== *)

Section RequestLine.

Context {QueryParams : Type}.
Variable queryString_parse : jsstring -> Result QueryParams.
Variable no_params : QueryParams.

Lemma parseRequest_needs_space (text : jsstring) :
  ~ In (ch " ") (nth 0 (split text crlf) []) ->
  parseRequest queryString_parse no_params text = Throw TypeError.
Proof.
  intros H. unfold parseRequest.
  change (lit " ") with [ch " "]. rewrite split_one.
  now destruct (before_first_none _ _ H) as [_ ->].
Qed.

(** X1. The request line is cut at its spaces.  Without a space in it
    [parseRequest] throws a [TypeError].  When [parseRequest] returns a
    request, the method is the text before the first space, and the
    resource is the text between the first and the second space, up to
    its first [?]: the resource holds no [?].  And a request line with a
    space and without [?] in its target always parses, with the empty
    parameters. *)
Theorem request_line_parts (text : jsstring) :
  let first := nth 0 (split text crlf) [] in
  (~ In (ch " ") first ->
   parseRequest queryString_parse no_params text = Throw TypeError)
  /\ (forall req,
         parseRequest queryString_parse no_params text = Ok req ->
         exists rest,
           after_first (ch " ") first = Some rest
           /\ method req = before_first (ch " ") first
           /\ resource req
              = before_first (ch "?") (before_first (ch " ") rest)
           /\ ~ In (ch "?") (resource req))
  /\ (forall rest,
         after_first (ch " ") first = Some rest ->
         ~ In (ch "?") (before_first (ch " ") rest) ->
         exists req,
           parseRequest queryString_parse no_params text = Ok req
           /\ resource req = before_first (ch " ") rest
           /\ params req = no_params).
Proof.
  intros first. unfold parseRequest. fold first.
  change (lit " ") with [ch " "]. change (lit "?") with [ch "?"].
  rewrite split_one.
  destruct (after_first (ch " ") first) as [rest|] eqn:E.
  - rewrite split_one. cbn [nth_error nth].
    pose proof (cut_at_indexOf (ch "?") (before_first (ch " ") rest)) as Hcut.
    destruct (fold_left scan_line (split text crlf) (false, Obj.empty, None))
      as [[b hs] bd].
    split; [|split].
    + intros H. exfalso. apply H. now apply after_first_in in E.
    + intros req Hreq. exists rest. split; [reflexivity|].
      destruct (indexOf (before_first (ch " ") rest) [ch "?"]) as [i|].
      * destruct (queryString_parse _) as [ps|e]; cbn [rbind] in Hreq;
          [|discriminate].
        injection Hreq as <-. cbn [resource method].
        split; [reflexivity|]. split; [exact Hcut|].
        change (~ In (ch "?") (substring (before_first (ch " ") rest) 0 i)).
        rewrite Hcut. apply before_first_not_in.
      * cbn [rbind] in Hreq. injection Hreq as <-. cbn [resource method].
        split; [reflexivity|]. split; [exact Hcut|].
        change (~ In (ch "?") (before_first (ch " ") rest)).
        rewrite Hcut. apply before_first_not_in.
    + intros rest' [= <-] Hno.
      rewrite indexOf_one.
      destruct (after_first (ch "?") (before_first (ch " ") rest)) as [r|] eqn:Er.
      * exfalso. apply Hno. now apply after_first_in in Er.
      * cbn. eexists. split; [reflexivity|]. split; reflexivity.
  - cbn [nth_error]. split; [reflexivity|]. split.
    + intros req H. discriminate.
    + intros rest H. discriminate.
Qed.

(** X2. The body of the request is the last of the lines that follow
    the first empty line, whatever stands between them, and [null] when
    no line follows an empty line. *)
Theorem request_body_is_last_line (text : jsstring)
    (req : Request QueryParams) :
  parseRequest queryString_parse no_params text = Ok req ->
  body req = last_line (body_lines (split text crlf)).
Proof.
  unfold parseRequest. intros H.
  destruct (nth_error _ 1) as [target|]; [|discriminate].
  rewrite <- (scan_lines_request_body _ Obj.empty).
  destruct (fold_left scan_line _ _) as [[b hs] bd].
  destruct (indexOf target (lit "?")) as [i|].
  - destruct (queryString_parse _); cbn in H; [|discriminate].
    now injection H as <-.
  - cbn in H. now injection H as <-.
Qed.

(** X3. When several lines before the empty line stand for a header of
    the same name, the last one gives the value, and the headers have a
    property of their own under that name; names are compared as they
    are written.  A name that no line stands for is no property of the
    headers, and reads as [undefined] unless [Object.prototype] defines
    it.  No line makes a property named [__proto__]. *)
Theorem last_header_line_wins (text : jsstring) (req : Request QueryParams)
    (name : jsstring) :
  parseRequest queryString_parse no_params text = Ok req ->
  let lines := header_lines (split text crlf) in
  (forall v,
      name <> Obj.proto_key ->
      last_header name lines = VString v ->
      Obj.has (headers req) name = true
      /\ Obj.get (headers req) name = VString v)
  /\ (last_header name lines = VUndefined ->
      Obj.has (headers req) name = false
      /\ (Obj.inherited name = false ->
          Obj.get (headers req) name = VUndefined))
  /\ Obj.has (headers req) Obj.proto_key = false.
Proof.
  intros H lines. rewrite (headers_of_parseRequest _ _ _ _ H). fold lines.
  split; [|split].
  - intros v Hname Hlast.
    rewrite has_add_headers_last, get_add_headers by exact Hname.
    now rewrite Hlast.
  - intros Hlast.
    assert (Obj.has (fold_left add_header lines Obj.empty) name = false) as E.
    { destruct (str_eqb name Obj.proto_key) eqn:Ep.
      - apply str_eqb_eq in Ep. subst name. apply has_add_headers_proto.
      - rewrite has_add_headers_last, Hlast; [reflexivity|].
        intros ->. now rewrite str_eqb_refl in Ep. }
    split; [exact E|]. intros _. now apply get_absent.
  - apply has_add_headers_proto.
Qed.

Lemma resource_of_parseRequest (text : jsstring)
    (req : Request QueryParams) :
  parseRequest queryString_parse no_params text = Ok req ->
  ~ In (ch " ") (resource req) /\ ~ In (ch "?") (resource req).
Proof.
  unfold parseRequest. set (first := nth 0 (split text crlf) []).
  change (lit " ") with [ch " "]. change (lit "?") with [ch "?"].
  rewrite split_one.
  destruct (after_first (ch " ") first) as [rest|]; [|discriminate].
  rewrite split_one. cbn [nth_error nth].
  pose proof (cut_at_indexOf (ch "?") (before_first (ch " ") rest)) as Hcut.
  destruct (fold_left scan_line (split text crlf) (false, Obj.empty, None))
    as [[b hs] bd].
  intros Hreq.
  assert (resource req
          = before_first (ch "?") (before_first (ch " ") rest)) as ->.
  { destruct (indexOf (before_first (ch " ") rest) [ch "?"]) as [i|].
    - destruct (queryString_parse _) as [ps|e]; cbn [rbind] in Hreq;
        [|discriminate].
      injection Hreq as <-. exact Hcut.
    - cbn [rbind] in Hreq. injection Hreq as <-. exact Hcut. }
  split; [|apply before_first_not_in].
  intros Hin. apply before_first_in in Hin.
  now apply before_first_not_in in Hin.
Qed.

(** X4. The name of the file that a request stands for is never empty.
    A resource of one character at most, [/] or any other, stands for
    [index.html]; a longer one stands for what follows its first
    character, whatever that character is and whatever follows, [..]
    segments included.  For a request that [parseRequest] has made, the
    name holds neither a space nor a [?]. *)
Theorem resource_name_of_request (req : Request QueryParams) :
  getReqResourceName req <> []
  /\ ((List.length (resource req) <= 1)%nat ->
      getReqResourceName req = lit "index.html")
  /\ (forall c name,
         resource req = c :: name -> name <> [] ->
         getReqResourceName req = name)
  /\ (forall text,
         parseRequest queryString_parse no_params text = Ok req ->
         ~ In (ch " ") (getReqResourceName req)
         /\ ~ In (ch "?") (getReqResourceName req)).
Proof.
  unfold getReqResourceName, substring_from. split; [|split; [|split]].
  - destruct (skipn 1 (resource req)) eqn:E; cbn [str_eqb]; discriminate.
  - destruct (resource req) as [|c [|d r]]; cbn [List.length];
      [reflexivity|reflexivity|lia].
  - intros c name -> Hname. cbn [skipn].
    destruct name; [contradiction|reflexivity].
  - intros text Hreq.
    destruct (resource_of_parseRequest text req Hreq) as [Hsp Hq].
    destruct (resource req) as [|c [|d r]]; cbn [skipn str_eqb].
    + split; cbn; intuition discriminate.
    + split; cbn; intuition discriminate.
    + split; intros Hin; [apply Hsp|apply Hq]; now right.
Qed.

End RequestLine.

(* ================================================================== *)
(** ** More on the resource name and on content negotiation *)
(* ================================================================== *)

(** X5. A mime type is accepted exactly when it is, character for
    character, one of the accepted entries, or when [*/*] is one of them:
    an entry such as [image/*] is compared like any other text and stands
    for no family of types.  The [false] of a resource without known type
    is accepted through [*/*] only. *)
Theorem accepted_iff_listed (m : Mime) (accepted : list jsstring) :
  mimeTypeIsAccepted m accepted = true
  <-> (exists t, m = MType t /\ In t accepted) \/ In (lit "*/*") accepted.
Proof.
  unfold mimeTypeIsAccepted. split.
  - intros H.
    destruct (existsb (str_eqb (lit "*/*")) accepted) eqn:Ew.
    + right. apply existsb_exists in Ew as (x & Hx & Ex).
      apply str_eqb_eq in Ex. now subst x.
    + left. destruct m as [|t]; [discriminate|].
      destruct (existsb (str_eqb t) accepted) eqn:Et; [|discriminate].
      apply existsb_exists in Et as (x & Hx & Ex).
      apply str_eqb_eq in Ex. subst x. now exists t.
  - intros [(t & -> & Hin)|Hin].
    + now rewrite (existsb_str_eqb _ _ Hin).
    + rewrite (existsb_str_eqb _ _ Hin). cbn [negb]. now rewrite andb_false_r.
Qed.

(** X6. In [getMimeTypeParts] the text is trimmed first and cut at its
    first [;] afterwards.  A type without [;] is split at its [/] once
    trimmed at both ends; a type followed by [;] and parameters loses
    them, but keeps the blanks that stand between it and the [;]. *)
Theorem mime_type_parts_without_parameters (t p : jsstring) :
  ~ In (ch ";") t ->
  getMimeTypeParts t = split (trim t) (lit "/")
  /\ getMimeTypeParts (t ++ ch ";" :: p) = split (trim_start t) (lit "/").
Proof.
  intros Hno. unfold getMimeTypeParts. change (lit ";") with [ch ";"].
  split.
  - pose proof (cut_at_indexOf (ch ";") (trim t)) as H. cbv zeta.
    rewrite H. f_equal. apply before_first_none.
    intros Hin. apply Hno. now apply trim_in.
  - pose proof (cut_at_indexOf (ch ";") (trim (t ++ ch ";" :: p))) as H.
    cbv zeta. rewrite H. f_equal.
    rewrite trim_app_stop by reflexivity.
    apply before_first_app. intros Hin. apply Hno. now apply trim_start_in.
Qed.

Lemma undefined_text_plain (c : char16) :
  c = ch "/" \/ c = ch ";" -> ~ In c (lit "undefined").
Proof. intros [-> | ->] H; cbn in H; intuition discriminate. Qed.

Lemma entry_shape (p0 q : jsstring) :
  ~ In (ch "/") p0 -> ~ In (ch ";") p0 ->
  ~ In (ch "/") q -> ~ In (ch ";") q ->
  count (ch "/") (p0 ++ lit "/" ++ q) = 1%nat
  /\ ~ In (ch ";") (p0 ++ lit "/" ++ q).
Proof.
  intros H0s H0c H1s H1c. split.
  - rewrite !count_app, (count_zero _ _ H0s), (count_zero _ _ H1s).
    reflexivity.
  - intros Hin. apply in_app_or in Hin as [Hin|Hin]; [auto|].
    apply in_app_or in Hin as [Hin|Hin]; [|auto].
    cbn in Hin. intuition discriminate.
Qed.

(** X7. The list that [parseMimeTypeList] makes of an [Accept] header
    has one entry more than the header has commas; every entry has
    exactly one [/] and no [;], whatever the header holds. *)
Theorem accept_list_shape (s : jsstring) (accepted : list jsstring) :
  parseMimeTypeList (VString s) = Ok accepted ->
  List.length accepted = S (count (ch ",") s)
  /\ Forall (fun e => count (ch "/") e = 1%nat /\ ~ In (ch ";") e) accepted.
Proof.
  cbn [parseMimeTypeList]. intros [= <-]. split.
  - rewrite length_map. apply split_length.
  - apply Forall_forall. intros e He. apply in_map_iff in He as (y & <- & _).
    unfold getMimeTypeParts. change (lit ";") with [ch ";"]. cbv zeta.
    rewrite (cut_at_indexOf (ch ";") (trim y)).
    change (lit "/") with [ch "/"].
    set (X := before_first (ch ";") (trim y)).
    assert (~ In (ch ";") X) as HX by apply before_first_not_in.
    assert (forall part, In part (split X [ch "/"]) ->
                         ~ In (ch "/") part /\ ~ In (ch ";") part) as Hparts.
    { intros part Hp. destruct (split_pieces _ _ _ Hp) as [H1 H2].
      split; [exact H1|]. intros Hin. apply HX. now apply H2. }
    destruct (split X [ch "/"]) as [|p0 ps] eqn:Es.
    { unfold split in Es. now apply split_from_not_nil in Es. }
    destruct (Hparts p0 (or_introl eq_refl)) as [H0s H0c].
    unfold at_index. destruct ps as [|p1 ps]; cbn [nth_error to_string].
    + apply entry_shape; auto; apply undefined_text_plain; auto.
    + destruct (Hparts p1 (or_intror (or_introl eq_refl))) as [H1s H1c].
      now apply entry_shape.
Qed.

(* ================================================================== *)
(** ** More on the resolver *)
(* ================================================================== *)

Section Resolver.

Context {QueryParams : Type}.
Variable wwwPath : jsstring.
Variable fs : jsstring -> FsNode.
Variable now : jsstring.
Variable mime_lookup : jsstring -> Mime.

(** X8. A request with an [Accept] header for a resource that does not
    exist is answered by the 404 response, whose body is [404.html],
    whatever the header accepts: existence is looked at first.  GET, HEAD
    and POST do the same, so that the 404 response to a HEAD request has
    a body as well. *)
Theorem not_found_response (req : Request QueryParams) (s : jsstring)
    (page : Buffer) :
  let path := wwwPath ++ lit "/" ++ getReqResourceName req in
  let answer :=
    ([ExistsSync path; ReadFileSync (wwwPath ++ lit "/404.html")],
     Ok (page_response now (lit "404 NOT FOUND") page)) in
  Obj.get (headers req) (lit "Accept") = VString s ->
  fs path = NoEntry ->
  fs (wwwPath ++ lit "/404.html") = File page ->
  processGet wwwPath fs now mime_lookup req = answer
  /\ processHead wwwPath fs now mime_lookup req = answer
  /\ processPost wwwPath fs now mime_lookup req = answer.
Proof.
  intros path answer Hacc Hno Hpage.
  unfold processPost, processGet, processHead, existsSync, create404Response,
    readFileSync, bind, lift, ret.
  fold path. rewrite Hacc, Hno, Hpage. cbn. auto.
Qed.



(** X11. A GET or POST request with a body that is not empty, for a file
    that exists and whose extension has no mime type, cannot be answered:
    the file is read, and then [mimeTypeIsHtml] is given [false] and
    throws a [TypeError]. *)
Theorem body_for_untyped_file_throws (req : Request QueryParams)
    (s b : jsstring) (accepted : list jsstring) (data : Buffer) :
  let name := getReqResourceName req in
  let path := wwwPath ++ lit "/" ++ name in
  Obj.get (headers req) (lit "Accept") = VString s ->
  parseMimeTypeList (VString s) = Ok accepted ->
  In (lit "*/*") accepted ->
  mime_lookup name = MFalse ->
  fs path = File data ->
  truthy (body req) = Some b ->
  processGet wwwPath fs now mime_lookup req
  = ([ExistsSync path; ReadFileSync path], Throw TypeError)
  /\ processPost wwwPath fs now mime_lookup req
     = ([ExistsSync path; ReadFileSync path], Throw TypeError).
Proof.
  intros name path Hacc Hparse Hin Hmime Hfile Hbody.
  unfold processPost, processGet, existsSync, readFileSync, bind, lift, ret.
  fold name. fold path.
  rewrite Hacc, Hparse, (wildcard_is_accepted _ _ Hin), Hfile, Hbody, Hmime.
  cbn. auto.
Qed.

(** X12. A GET or POST request with a body that is not empty, for an
    accepted file whose mime type is [text/html], is answered by the file
    run through [runCGI] with the parameters of the body, under
    [Content-Length] the number of bytes of the result; when the body has
    a malformed escape the exception of [parseFormUrlEncoded] comes out
    instead, after the file has been read. *)
Theorem html_file_is_rendered (req : Request QueryParams) (s b : jsstring)
    (accepted : list jsstring) (data : Buffer) :
  let name := getReqResourceName req in
  let path := wwwPath ++ lit "/" ++ name in
  let answer :=
    ([ExistsSync path; ReadFileSync path],
     rmap (fun ps =>
             mkResponse (lit "200 OK")
               (mkHeaders now (lit "MiServidor/1.0")
                          (List.length (runCGI data ps)) (mime_lookup name))
               (Some (runCGI data ps)))
          (parseFormUrlEncoded b)) in
  Obj.get (headers req) (lit "Accept") = VString s ->
  parseMimeTypeList (VString s) = Ok accepted ->
  mimeTypeIsAccepted (mime_lookup name) accepted = true ->
  fs path = File data ->
  truthy (body req) = Some b ->
  mimeTypeIsHtml (mime_lookup name) = Ok true ->
  processGet wwwPath fs now mime_lookup req = answer
  /\ processPost wwwPath fs now mime_lookup req = answer.
Proof.
  intros name path answer Hacc Hparse Hok Hfile Hbody Hhtml.
  unfold processPost, processGet, existsSync, readFileSync, bind, lift, ret.
  fold name. fold path.
  rewrite Hacc, Hparse, Hok, Hfile, Hbody, Hhtml. cbn [negb].
  subst answer. destruct (parseFormUrlEncoded b); cbn; auto.
Qed.

Lemma createResponse_cases (req : Request QueryParams) :
  createResponse wwwPath fs now mime_lookup req
  = processGet wwwPath fs now mime_lookup req
  \/ createResponse wwwPath fs now mime_lookup req
     = processHead wwwPath fs now mime_lookup req
  \/ createResponse wwwPath fs now mime_lookup req
     = create501Response wwwPath fs now.
Proof.
  unfold createResponse.
  destruct (str_eqb (method req) (lit "GET")); [now left|].
  destruct (str_eqb (method req) (lit "HEAD")); [now right; left|].
  destruct (str_eqb (method req) (lit "POST")); [now left|now right; right].
Qed.

Lemma createResponse_status_line (req : Request QueryParams) (r : Response) :
  outcome (createResponse wwwPath fs now mime_lookup req) = Ok r ->
  status_line (statusCode r).
Proof.
  revert r.
  destruct (createResponse_cases req) as [-> |[-> | ->]];
    unfold processGet, processHead, create404Response, create406Response,
      create501Response, existsSync, readFileSync, bind, lift, ret, outcome;
    case_all; intros r H; try discriminate H;
    injection H as <-; unfold status_line; cbn; intuition congruence.
Qed.

(** X13. Whatever the request, a response that [createResponse] returns
    has one of the four status lines, a [Content-Length] equal to the
    number of bytes of its body ([0] without body), the [Server] header
    [MiServidor/1.0] and the current date. *)
Theorem response_invariant (req : Request QueryParams) (r : Response) :
  outcome (createResponse wwwPath fs now mime_lookup req) = Ok r ->
  status_line (statusCode r)
  /\ content_length_ok r
  /\ Server (res_headers r) = lit "MiServidor/1.0"
  /\ Date (res_headers r) = now.
Proof.
  revert r.
  set (P := fun r => status_line (statusCode r) /\ content_length_ok r
                     /\ Server (res_headers r) = lit "MiServidor/1.0"
                     /\ Date (res_headers r) = now).
  change (forall r, outcome (createResponse wwwPath fs now mime_lookup req)
                    = Ok r -> P r).
  destruct (createResponse_cases req) as [-> |[-> | ->]];
    unfold processGet, processHead, create404Response, create406Response,
      create501Response, existsSync, readFileSync, bind, lift, ret, outcome;
    case_all; intros r H; try discriminate H;
    injection H as <-; unfold P, status_line, content_length_ok; cbn;
    intuition congruence.
Qed.

(** X14. Whatever the request, [createResponse] calls the file system
    twice at most.  It asks for the existence of no path other than that
    of the resource, and reads no path other than that of the resource
    and those of the three status pages; when it reads the resource, it
    has asked for its existence just before and calls nothing else. *)
Theorem file_system_calls (req : Request QueryParams) :
  let path := wwwPath ++ lit "/" ++ getReqResourceName req in
  let made := fst (createResponse wwwPath fs now mime_lookup req) in
  (List.length made <= 2)%nat
  /\ (forall p, In (ExistsSync p) made -> p = path)
  /\ (forall p, In (ReadFileSync p) made -> readable wwwPath path p)
  /\ (In (ReadFileSync path) made ->
      path = wwwPath ++ lit "/404.html" \/ path = wwwPath ++ lit "/406.html"
      \/ path = wwwPath ++ lit "/501.html"
      \/ made = [ExistsSync path; ReadFileSync path]).
Proof.
  intros path made. subst made path. unfold readable.
  destruct (createResponse_cases req) as [-> |[-> | ->]];
    unfold processGet, processHead, create404Response, create406Response,
      create501Response, existsSync, readFileSync, bind, lift, ret;
    case_all;
    (split; [lia|]);
    (split; [intros p Hp; cbn -[lit] in Hp; intuition congruence|]);
    (split; [intros p Hp; cbn -[lit] in Hp; intuition congruence|]);
    intros Hp; cbn -[lit] in Hp; intuition congruence.
Qed.

End Resolver.

(* ================================================================== *)
(** ** The form body, the serializer and the small helpers *)
(* ================================================================== *)

(** X15. On a body without [%], [parseFormUrlEncoded] does not throw:
    every pair sets the property named by the text before its first [=]
    to the text that follows, up to a second [=], with every [+] of both
    read as a space. *)
Theorem form_body_without_escapes (body : jsstring) :
  ~ In (ch "%") body ->
  parseFormUrlEncoded body
  = Ok (fold_left plain_property (split body (lit "&")) Obj.empty).
Proof.
  intros H. unfold parseFormUrlEncoded. apply add_properties_plain.
  intros prop Hprop Hin. apply H.
  change (lit "&") with [ch "&"] in Hprop.
  now apply (proj2 (split_pieces _ _ _ Hprop)).
Qed.

Lemma responseString_shape (r : Response) :
  exists middle,
    responseString r
    = lit "HTTP/1.1 " ++ statusCode r ++ crlf ++ middle ++ crlf ++ crlf.
Proof.
  exists (lit "Date: " ++ Date (res_headers r) ++ crlf
          ++ lit "Server: " ++ Server (res_headers r) ++ crlf
          ++ lit "Content-Length: "
          ++ number_to_string (Content_Length (res_headers r)) ++ crlf
          ++ lit "Content-Type: "
          ++ mime_to_string (Content_Type (res_headers r))).
  unfold responseString, header_entries. cbn [fold_left fst snd].
  rewrite <- !app_assoc. reflexivity.
Qed.

(** X16. The serialized form of a response is its head followed by
    the bytes of the body as they are, nothing for a body that is absent.
    The head is made of six lines, each ended by CR LF: [HTTP/1.1 ] and
    the status line, then [Date], [Server], [Content-Length] in decimal
    and [Content-Type], in this order, then the empty line.  When status
    line, date, server and content type are ASCII, the bytes of the head
    are its characters, and a response that has the [Content-Length] of
    its body is as long as its head and that many bytes more.  When they
    hold no CR, cutting the head at every CR LF gives the six lines
    back. *)
Theorem serialized_response (r : Response) :
  responseToBuffer r = Utf8.encode (head_text r) ++ body_bytes r
  /\ (Forall ascii_only (head_fields r) ->
      responseToBuffer r = head_text r ++ body_bytes r
      /\ (content_length_ok r ->
          List.length (responseToBuffer r)
          = (List.length (head_text r)
             + Content_Length (res_headers r))%nat))
  /\ (Forall (fun field => ~ In 13 field) (head_fields r) ->
      split (head_text r) crlf = head_lines r ++ [[]]).
Proof.
  assert (responseToBuffer r = Utf8.encode (head_text r) ++ body_bytes r) as E.
  { unfold responseToBuffer, body_bytes. rewrite responseString_head_text.
    destruct (res_body r); [reflexivity|now rewrite app_nil_r]. }
  split; [exact E|split].
  - intros Ha. apply ascii_only_head_text, encode_ascii_only in Ha.
    rewrite E, Ha. split; [reflexivity|].
    intros Hlen. rewrite length_app. f_equal.
    unfold content_length_ok, body_bytes in *.
    destruct (res_body r); now rewrite Hlen.
  - unfold head_fields. intros H.
    inversion_clear H as [|? ? H0 H']. inversion_clear H' as [|? ? H1 H''].
    inversion_clear H'' as [|? ? H2 H3]. inversion_clear H3 as [|? ? H3' _].
    apply split_lines. unfold head_lines.
    assert (forall (a : string) b, ~ In 13 (lit a) -> ~ In 13 b
                                   -> ~ In 13 (lit a ++ b)) as Happ.
    { intros a b Hx Hy Hin. apply in_app_or in Hin. tauto. }
    assert (~ In 13 (number_to_string (Content_Length (res_headers r)))) as Hn.
    { intros Hin.
      pose proof (proj1 (Forall_forall _ _)
                    (number_to_string_digits (Content_Length (res_headers r)))
                    13 Hin) as Hd.
      cbn in Hd. lia. }
    repeat constructor; try (apply Happ; [|assumption]);
      cbn; intuition discriminate.
Qed.


(** X18. [getSocketRemoteAddr] takes the prefix [::ffff:] off an address
    that starts with it, leaves an address in which this text does not
    occur as it is, and throws a [TypeError] when the socket has no
    remote address. *)
Theorem remote_address_without_prefix (a : jsstring) :
  getSocketRemoteAddr (VString (lit "::ffff:" ++ a)) = Ok a
  /\ (~ occurs_in (lit "::ffff:") a -> getSocketRemoteAddr (VString a) = Ok a)
  /\ getSocketRemoteAddr VUndefined = Throw TypeError.
Proof.
  split; [|split; [|reflexivity]].
  - cbn [getSocketRemoteAddr]. unfold replace.
    assert (indexOf (lit "::ffff:" ++ a) (lit "::ffff:") = Some 0%nat) as ->.
    { destruct (lit "::ffff:" ++ a) eqn:E; [discriminate|].
      cbn [indexOf]. now rewrite <- E, starts_with_app. }
    reflexivity.
  - intros H. apply indexOf_none_iff in H.
    cbn [getSocketRemoteAddr]. unfold replace. now rewrite H.
Qed.

Section Handler.

Context {QueryParams : Type}.
Variable queryString_parse : jsstring -> Result QueryParams.
Variable no_params : QueryParams.
Variable wwwPath : jsstring.
Variable fs : jsstring -> FsNode.
Variable now : jsstring.
Variable mime_lookup : jsstring -> Mime.

(** X19. What the handler of a connection writes, when it writes
    anything, starts with [HTTP/1.1 ], one of the four status lines and
    the end of a line.  A chunk of data whose first line has no space
    makes it throw a [TypeError] before any call to the file system. *)
Theorem written_response (data buf : Buffer) :
  (outcome (onData queryString_parse no_params wwwPath fs now mime_lookup
                   data) = Ok buf ->
   exists status rest,
     status_line status
     /\ buf = lit "HTTP/1.1 " ++ status ++ crlf ++ rest)
  /\ (~ In (ch " ") (nth 0 (split (Utf8.decode data) crlf) []) ->
      onData queryString_parse no_params wwwPath fs now mime_lookup data
      = ([], Throw TypeError)).
Proof.
  unfold onData, bind, lift, ret, outcome. split.
  - destruct (parseRequest _ _ _) as [req|e]; [|discriminate].
    pose proof (createResponse_status_line wwwPath fs now mime_lookup req)
      as Hinv.
    unfold outcome in Hinv.
    destruct (createResponse wwwPath fs now mime_lookup req) as [cs [r|e]];
      [|discriminate].
    cbn [snd]. intros [= <-].
    pose proof (Hinv r eq_refl) as Hst.
    destruct (responseString_shape r) as [middle Hs].
    exists (statusCode r),
      (Utf8.encode (middle ++ crlf ++ crlf) ++ body_bytes r).
    split; [exact Hst|].
    unfold responseToBuffer, body_bytes. rewrite Hs.
    rewrite encode_ascii_app by (repeat constructor; reflexivity).
    assert (ascii_only (statusCode r ++ crlf)) as Ha.
    { destruct Hst as [-> |[-> |[-> | ->]]]; repeat constructor; reflexivity. }
    rewrite (app_assoc (statusCode r) crlf).
    rewrite (encode_ascii_app _ _ Ha).
    destruct (res_body r); rewrite <- !app_assoc, ?app_nil_r; reflexivity.
  - intros H. now rewrite (parseRequest_needs_space _ _ _ H).
Qed.

End Handler.

(** X20. [parseFormUrlEncoded] throws nothing but a [URIError], and only
    on a body with a [%] in it; and when it returns, every [%] of the
    body is followed by two hexadecimal digits. *)
Theorem form_body_escapes (body : jsstring) :
  (forall e, parseFormUrlEncoded body = Throw e ->
             e = URIError /\ In (ch "%") body)
  /\ (forall ps, parseFormUrlEncoded body = Ok ps ->
                 forall pre post, body = pre ++ ch "%" :: post ->
                                  two_hex_digits post).
Proof.
  unfold parseFormUrlEncoded. split.
  - intros e H. split.
    + apply add_properties_throw in H as [H|(prop & part & _ & _ & H)];
        [discriminate|].
      now apply form_decode_throws_URIError in H.
    + destruct (in_dec N.eq_dec (ch "%") body) as [Hin|Hno]; [exact Hin|].
      rewrite add_properties_plain in H; [discriminate|].
      intros prop Hprop Hin. apply Hno.
      change (lit "&") with [ch "&"] in Hprop.
      now apply (proj2 (split_pieces _ _ _ Hprop)).
  - intros ps H pre post Hbody.
    destruct (split_locate (ch "&") (ch "%") body pre post Hbody)
      as (prop & A & B & Hprop & Eprop & Hpost); [discriminate|].
    destruct (split_locate (ch "=") (ch "%") prop A B Eprop)
      as (part & A' & B' & Hpart & Epart & HB); [discriminate|].
    destruct (add_properties_ok _ _ _ H prop part Hprop Hpart) as [y Hy].
    pose proof (form_decode_ok_escapes part y Hy A' B' Epart) as Hhex.
    apply (two_hex_digits_upto post B (ch "&") Hpost).
    apply (two_hex_digits_upto B B' (ch "=") HB). exact Hhex.
Qed.

(** X21. A POST request is answered like the GET request with the same
    headers, resource and body: the same calls to the file system and the
    same response or exception. *)
Theorem post_answered_like_get {QueryParams : Type} (wwwPath : jsstring)
    (fs : jsstring -> FsNode) (now : jsstring)
    (mime_lookup : jsstring -> Mime) (get post : Request QueryParams) :
  method get = lit "GET" ->
  method post = lit "POST" ->
  headers post = headers get ->
  resource post = resource get ->
  body post = body get ->
  createResponse wwwPath fs now mime_lookup post
  = createResponse wwwPath fs now mime_lookup get.
Proof.
  intros Hg Hp Hh Hr Hb. unfold createResponse. rewrite Hg, Hp.
  change (str_eqb (lit "POST") (lit "GET")) with false.
  change (str_eqb (lit "POST") (lit "HEAD")) with false.
  change (str_eqb (lit "POST") (lit "POST")) with true.
  change (str_eqb (lit "GET") (lit "GET")) with true. cbv iota.
  unfold processPost, processGet, getReqResourceName.
  now rewrite Hh, Hr, Hb.
Qed.

(* ================================================================== *)
(** ** More on the template step *)
(* ================================================================== *)

(** X22. What [runCGI] returns is well-formed UTF-8, whatever the bytes
    of the document, for parameters whose values are strings or
    [undefined].  So [runCGI] with no parameters changes a document at
    most once: applied to its own result, it returns it as it is. *)
Theorem runCGI_output_well_formed (data : Buffer) (params : Obj.t) :
  string_values params ->
  Utf8.well_formed (runCGI data params) = true
  /\ runCGI (runCGI data Obj.empty) Obj.empty = runCGI data Obj.empty.
Proof.
  intros Hp.
  assert (forall ps, string_values ps ->
                     Utf8.well_formed (runCGI data ps) = true) as Hwf.
  { intros ps Hps. unfold runCGI. apply Utf8Out.encode_well_formed.
    apply substitute_all_units; [exact Hps|apply Utf8Out.decode_units]. }
  split; [now apply Hwf|].
  assert (Utf8.well_formed (runCGI data Obj.empty) = true) as H0.
  { apply Hwf. constructor. }
  unfold runCGI at 1. cbn [Obj.keys Obj.empty Obj.index_keys Obj.named_keys
                             map app fold_left].
  now apply Utf8Facts.roundtrip.
Qed.

(* ================================================================== *)
(** ** The further properties on the small deployment *)
(* ================================================================== *)

Lemma request_line_parts_witness :
  Demo.parseRequest (lit "GET") = Throw TypeError
  /\ exists req,
       Demo.parseRequest
         (Demo.text ["GET /index.html HTTP/1.1"; "Accept: */*"] EmptyString)
       = Ok req
       /\ resource req = before_first (ch " ") (lit "/index.html HTTP/1.1")
       /\ params req = Demo.no_params.
Proof.
  split.
  - apply (proj1 (request_line_parts Demo.queryString_parse Demo.no_params
                    (lit "GET"))).
    cbn. intuition discriminate.
  - apply (proj2 (proj2 (request_line_parts
                           Demo.queryString_parse Demo.no_params
                           (Demo.text ["GET /index.html HTTP/1.1";
                                       "Accept: */*"] EmptyString)))
             (lit "/index.html HTTP/1.1")).
    + reflexivity.
    + cbn. intuition discriminate.
Defined.

Lemma request_body_is_last_line_witness :
  Some (lit "segunda")
  = last_line
      (body_lines
         (split (Demo.text ["POST /proceso.html HTTP/1.1"; "Accept: */*"]
                           "primera" ++ crlf ++ lit "segunda") crlf)).
Proof.
  apply (request_body_is_last_line Demo.queryString_parse Demo.no_params
           (Demo.text ["POST /proceso.html HTTP/1.1"; "Accept: */*"] "primera"
              ++ crlf ++ lit "segunda")
           (mkRequest [(lit "Accept", VString (lit "*/*"))] (lit "POST")
                      (lit "/proceso.html") Demo.no_params
                      (Some (lit "segunda")))).
  reflexivity.
Defined.

Lemma last_header_line_wins_witness :
  let text := Demo.text ["GET / HTTP/1.1"; "Accept: text/html"; "accept: */*";
                         "Accept: image/gif"] EmptyString in
  let req := mkRequest [(lit "Accept", VString (lit "image/gif"));
                        (lit "accept", VString (lit "*/*"))]
                       (lit "GET") (lit "/") Demo.no_params (Some []) in
  (Obj.has (headers req) (lit "Accept") = true
   /\ Obj.get (headers req) (lit "Accept") = VString (lit "image/gif"))
  /\ Obj.has (headers req) (lit "ACCEPT") = false
  /\ Obj.get (headers req) (lit "ACCEPT") = VUndefined.
Proof.
  intros text req.
  destruct (last_header_line_wins Demo.queryString_parse Demo.no_params
              text req (lit "Accept")) as (Hlast & _ & _).
  { reflexivity. }
  destruct (last_header_line_wins Demo.queryString_parse Demo.no_params
              text req (lit "ACCEPT")) as (_ & Hnone & _).
  { reflexivity. }
  split.
  - apply (Hlast (lit "image/gif")).
    + discriminate.
    + reflexivity.
  - destruct Hnone as [Hhas Hget]; [reflexivity|].
    split; [exact Hhas|]. apply Hget. reflexivity.
Defined.

Lemma resource_name_of_request_witness :
  getReqResourceName (Demo.request "GET" "x" [] None) = lit "index.html"
  /\ getReqResourceName (Demo.request "GET" "/../util.js" [] None)
     = lit "../util.js"
  /\ ~ In (ch "?")
         (getReqResourceName
            (mkRequest [] (lit "GET") (lit "/proceso.html")
                       (lit "?mensaje=Hola") None)).
Proof.
  split; [|split].
  - apply (proj1 (proj2 (resource_name_of_request
                           Demo.queryString_parse Demo.no_params
                           (Demo.request "GET" "x" [] None)))).
    cbn. lia.
  - apply (proj1 (proj2 (proj2 (resource_name_of_request
                                  Demo.queryString_parse Demo.no_params
                                  (Demo.request "GET" "/../util.js" [] None))))
             (ch "/")).
    + reflexivity.
    + discriminate.
  - apply (proj2 (proj2 (proj2 (resource_name_of_request
                                  Demo.queryString_parse Demo.no_params
                                  (mkRequest [] (lit "GET")
                                             (lit "/proceso.html")
                                             (lit "?mensaje=Hola") None))))
             (lit "GET /proceso.html?mensaje=Hola HTTP/1.1")).
    reflexivity.
Defined.

Lemma accepted_iff_listed_witness :
  mimeTypeIsAccepted MFalse [lit "text/html"; lit "*/*"] = true
  /\ mimeTypeIsAccepted (MType (lit "text/html")) [lit "text/html"] = true.
Proof.
  split.
  - apply (proj2 (accepted_iff_listed MFalse [lit "text/html"; lit "*/*"])).
    right. right. left. reflexivity.
  - apply (proj2 (accepted_iff_listed (MType (lit "text/html"))
                                      [lit "text/html"])).
    left. exists (lit "text/html"). split; [reflexivity|]. left. reflexivity.
Defined.

Lemma mime_type_parts_without_parameters_witness :
  getMimeTypeParts (lit " text/html ;q=0.8") = [lit "text"; lit "html "].
Proof.
  assert (~ In (ch ";") (lit " text/html ")) as H
    by (cbn; intuition discriminate).
  exact (proj2 (mime_type_parts_without_parameters
                  (lit " text/html ") (lit "q=0.8") H)).
Defined.

Lemma accept_list_shape_witness :
  List.length [lit "text/html"; lit "*/*"; lit "texto/undefined"]
  = S (count (ch ",") (lit "text/html, */*;q=0.8, texto")).
Proof.
  apply (accept_list_shape (lit "text/html, */*;q=0.8, texto")
           [lit "text/html"; lit "*/*"; lit "texto/undefined"]).
  reflexivity.
Defined.

Lemma not_found_response_witness :
  Demo.processHead (Demo.request "HEAD" "/nada.html" [("Accept", "image/gif")] None)
  = ([ExistsSync (lit "/srv/www/nada.html");
      ReadFileSync (lit "/srv/www/404.html")],
     Ok (page_response Demo.now (lit "404 NOT FOUND") Demo.page404)).
Proof.
  apply (not_found_response Demo.wwwPath Demo.fs Demo.now Demo.mime_lookup
           (Demo.request "HEAD" "/nada.html" [("Accept", "image/gif")] None)
           (lit "image/gif") Demo.page404).
  - reflexivity.
  - reflexivity.
  - reflexivity.
Defined.



Lemma body_for_untyped_file_throws_witness :
  Demo.processPost
    (Demo.request "POST" "/datos.noexiste" [("Accept", "*/*")] (Some "a=1"))
  = ([ExistsSync (lit "/srv/www/datos.noexiste");
      ReadFileSync (lit "/srv/www/datos.noexiste")],
     Throw TypeError).
Proof.
  apply (body_for_untyped_file_throws Demo.wwwPath Demo.fs Demo.now
           Demo.mime_lookup
           (Demo.request "POST" "/datos.noexiste" [("Accept", "*/*")]
                         (Some "a=1"))
           (lit "*/*") (lit "a=1") [lit "*/*"] [0; 1; 2]).
  - reflexivity.
  - reflexivity.
  - left. reflexivity.
  - reflexivity.
  - reflexivity.
  - reflexivity.
Defined.

Lemma html_file_is_rendered_witness :
  Demo.processGet
    (Demo.request "GET" "/proceso.html" [("Accept", "text/html")]
                  (Some "mensaje=100%"))
  = ([ExistsSync (lit "/srv/www/proceso.html");
      ReadFileSync (lit "/srv/www/proceso.html")],
     Throw URIError).
Proof.
  apply (html_file_is_rendered Demo.wwwPath Demo.fs Demo.now Demo.mime_lookup
           (Demo.request "GET" "/proceso.html" [("Accept", "text/html")]
                         (Some "mensaje=100%"))
           (lit "text/html") (lit "mensaje=100%") [lit "text/html"]
           Demo.proceso_html).
  - reflexivity.
  - reflexivity.
  - reflexivity.
  - reflexivity.
  - reflexivity.
  - reflexivity.
Defined.

Lemma response_invariant_witness :
  content_length_ok
    (mkResponse (lit "200 OK")
       (mkHeaders Demo.now (lit "MiServidor/1.0") 52 (MType (lit "text/html")))
       (Some (lit "<html><body> Hola Mundo y %%mensaje%% </body></html>"))).
Proof.
  apply (response_invariant Demo.wwwPath Demo.fs Demo.now Demo.mime_lookup
           (Demo.request "POST" "/proceso.html" [("Accept", "*/*")]
                         (Some "mensaje=Hola+Mundo"))).
  reflexivity.
Defined.

Lemma file_system_calls_witness :
  lit "/srv/www/index.html" = lit "/srv/www/404.html"
  \/ lit "/srv/www/index.html" = lit "/srv/www/406.html"
  \/ lit "/srv/www/index.html" = lit "/srv/www/501.html"
  \/ fst (Demo.createResponse
            (Demo.request "GET" "/index.html" [("Accept", "*/*")] None))
     = [ExistsSync (lit "/srv/www/index.html");
        ReadFileSync (lit "/srv/www/index.html")].
Proof.
  apply (proj2 (proj2 (proj2
           (file_system_calls Demo.wwwPath Demo.fs Demo.now Demo.mime_lookup
              (Demo.request "GET" "/index.html" [("Accept", "*/*")] None))))).
  right. left. reflexivity.
Defined.

Lemma form_body_without_escapes_witness :
  parseFormUrlEncoded (lit "mensaje=Hola+Mundo&vacio&a=b=c")
  = Ok [(lit "mensaje", VString (lit "Hola Mundo"));
        (lit "vacio", VUndefined);
        (lit "a", VString (lit "b"))].
Proof.
  apply (form_body_without_escapes (lit "mensaje=Hola+Mundo&vacio&a=b=c")).
  cbn. intuition discriminate.
Defined.

Lemma serialized_response_witness :
  let r := create200Response Demo.now (Some Demo.index_html)
                             (MType (lit "text/html")) in
  (responseToBuffer r
   = lit "HTTP/1.1 200 OK" ++ crlf
       ++ lit "Date: Mon, November 2nd 2026 12:00:00 +00:00" ++ crlf
       ++ lit "Server: MiServidor/1.0" ++ crlf
       ++ lit "Content-Length: 39" ++ crlf
       ++ lit "Content-Type: text/html" ++ crlf
       ++ crlf
       ++ lit "<html><body><h1>Hola</h1></body></html>"
   /\ List.length (responseToBuffer r) = (List.length (head_text r) + 39)%nat)
  /\ split (head_text r) crlf = head_lines r ++ [[]].
Proof.
  intros r.
  destruct (serialized_response r) as (_ & Hascii & Hlines).
  split.
  - destruct Hascii as [Hbytes Hlen].
    + repeat constructor; reflexivity.
    + split; [exact Hbytes|]. apply Hlen. reflexivity.
  - apply Hlines. repeat constructor; cbn; intuition discriminate.
Defined.


Lemma remote_address_without_prefix_witness :
  getSocketRemoteAddr (VString (lit "192.168.1.20")) = Ok (lit "192.168.1.20").
Proof.
  apply (proj1 (proj2 (remote_address_without_prefix (lit "192.168.1.20")))).
  apply indexOf_none_iff. reflexivity.
Defined.

Lemma written_response_witness :
  exists status rest,
    status_line status
    /\ lit "HTTP/1.1 501 NOT IMPLEMENTED" ++ crlf
         ++ lit "Date: " ++ Demo.now ++ crlf
         ++ lit "Server: MiServidor/1.0" ++ crlf
         ++ lit "Content-Length: 12" ++ crlf
         ++ lit "Content-Type: text/html" ++ crlf ++ crlf
         ++ Demo.page501
       = lit "HTTP/1.1 " ++ status ++ crlf ++ rest.
Proof.
  apply (proj1 (written_response Demo.queryString_parse Demo.no_params
                  Demo.wwwPath Demo.fs Demo.now Demo.mime_lookup
                  (Demo.text ["PUT /index.html HTTP/1.1"; "Accept: */*"]
                             "mensaje=Hola+Mundo")
                  _)).
  reflexivity.
Defined.

Lemma form_body_escapes_witness :
  two_hex_digits (lit "41+b")
  /\ (URIError = URIError /\ In (ch "%") (lit "a=100%")).
Proof.
  split.
  - apply (proj2 (form_body_escapes (lit "a=%41+b"))
             [(lit "a", VString (lit "A b"))] eq_refl (lit "a=") (lit "41+b")).
    reflexivity.
  - apply (proj1 (form_body_escapes (lit "a=100%")) URIError).
    reflexivity.
Defined.

Lemma post_answered_like_get_witness :
  Demo.createResponse
    (Demo.request "POST" "/proceso.html" [("Accept", "*/*")] (Some "mensaje=Hola"))
  = Demo.createResponse
      (Demo.request "GET" "/proceso.html" [("Accept", "*/*")] (Some "mensaje=Hola")).
Proof.
  apply (post_answered_like_get Demo.wwwPath Demo.fs Demo.now Demo.mime_lookup
           (Demo.request "GET" "/proceso.html" [("Accept", "*/*")]
                         (Some "mensaje=Hola"))
           (Demo.request "POST" "/proceso.html" [("Accept", "*/*")]
                         (Some "mensaje=Hola")));
    reflexivity.
Defined.

Lemma runCGI_output_well_formed_witness :
  Utf8.well_formed
    (runCGI [0xA1; 0x25; 0x25; 0x61; 0x25; 0x25; 0xFF]
            [(lit "a", VString [0xD83D]); (lit "b", VUndefined)]) = true.
Proof.
  apply (runCGI_output_well_formed
           [0xA1; 0x25; 0x25; 0x61; 0x25; 0x25; 0xFF]
           [(lit "a", VString [0xD83D]); (lit "b", VUndefined)]).
  repeat constructor.
Defined.
